(** * biogo/illumina: identifier parser and quality compressor

    A shallow embedding of [illumina.go] (Parse, preCasava, casava and
    their helpers) and of the quality compression file (defaultCompression,
    BinCompress, slowCompression), followed by the properties of the
    specification that were checked against them.

    Conventions of the embedding.
    - A Go [string] is a sequence of bytes: Rocq's [string] of [ascii].
    - Go's [int] is taken as 64 bits wide (the value of [strconv.IntSize] on
      the usual platforms); [int8], [uint8] and [rune] are [Z] with the
      conversion written out.
    - A panic is an explicit result; the deferred [recover] of the two
      parsers is the function that turns it into the returned pair. *)

From Stdlib Require Import ZArith List String Ascii Bool Lia.
Import ListNotations.
Open Scope string_scope.
Open Scope Z_scope.

(** ** Integer conversions *)

(** [int8(x)]: two's complement truncation to 8 bits. *)
Definition int8 (x : Z) : Z := (x + 128) mod 256 - 128.

(** [byte(x)], [uint8(x)]: the low 8 bits. *)
Definition uint8 (x : Z) : Z := Z.land x 255.

Definition maxInt64 : Z := 9223372036854775807.
Definition minInt64 : Z := -9223372036854775808.
Definition maxUint64 : Z := 18446744073709551615.

Definition byte_of (c : ascii) : Z := Z.of_N (N_of_ascii c).
Definition ascii_of (b : Z) : ascii := ascii_of_N (Z.to_N (uint8 b)).

(** [len(s)] *)
Definition len (s : string) : Z := Z.of_nat (String.length s).

(** ** Package unicode/utf8: decoding, as used by [range] over a string *)

Module utf8.

Definition RuneError : Z := 65533.

(** What the table [first] of the Go package says about a leading byte:
    the size of the encoding and the accepted range of the second byte. *)
Inductive lead :=
| ASCII
| Invalid
| Multi (size : nat) (lo hi : Z).

Definition first (b : Z) : lead :=
  if b <? 128 then ASCII
  else if b <? 194 then Invalid
  else if b <? 224 then Multi 2 128 191
  else if b =? 224 then Multi 3 160 191
  else if b <? 237 then Multi 3 128 191
  else if b =? 237 then Multi 3 128 159
  else if b <? 240 then Multi 3 128 191
  else if b =? 240 then Multi 4 144 191
  else if b <? 244 then Multi 4 128 191
  else if b =? 244 then Multi 4 128 143
  else Invalid.

Definition cont (b : Z) : bool := (128 <=? b) && (b <=? 191).

(** [DecodeRuneInString]: the rune at the head of a non-empty string and
    its width in bytes; an invalid encoding gives [RuneError] and width 1. *)
Definition DecodeRuneInString (s : string) : Z * nat :=
  match s with
  | EmptyString => (RuneError, 0%nat)
  | String c0 t =>
    let s0 := byte_of c0 in
    match first s0 with
    | ASCII => (s0, 1%nat)
    | Invalid => (RuneError, 1%nat)
    | Multi sz lo hi =>
      match t with
      | EmptyString => (RuneError, 1%nat)
      | String c1 t1 =>
        let s1 := byte_of c1 in
        if (s1 <? lo) || (hi <? s1) then (RuneError, 1%nat)
        else if (sz <=? 2)%nat then
          (Z.lor (Z.shiftl (Z.land s0 31) 6) (Z.land s1 63), 2%nat)
        else
          match t1 with
          | EmptyString => (RuneError, 1%nat)
          | String c2 t2 =>
            let s2 := byte_of c2 in
            if negb (cont s2) then (RuneError, 1%nat)
            else if (sz <=? 3)%nat then
              (Z.lor (Z.lor (Z.shiftl (Z.land s0 15) 12)
                            (Z.shiftl (Z.land s1 63) 6))
                     (Z.land s2 63), 3%nat)
            else
              match t2 with
              | EmptyString => (RuneError, 1%nat)
              | String c3 _ =>
                let s3 := byte_of c3 in
                if negb (cont s3) then (RuneError, 1%nat)
                else
                  (Z.lor (Z.lor (Z.lor (Z.shiftl (Z.land s0 7) 18)
                                       (Z.shiftl (Z.land s1 63) 12))
                                (Z.shiftl (Z.land s2 63) 6))
                         (Z.land s3 63), 4%nat)
              end
          end
      end
    end
  end.

(** The iteration of [for i, r := range s]: every rune of [s] with the
    bytes it was decoded from.  [skip] counts the bytes of the current
    rune that are still to be passed over. *)
Fixpoint range_from (skip : nat) (s : string) : list (Z * string) :=
  match s with
  | EmptyString => []
  | String _ t =>
    match skip with
    | S k => range_from k t
    | O =>
      let '(r, w) := DecodeRuneInString s in
      (r, substring 0 w s) :: range_from (Nat.pred w) t
    end
  end.

Definition range (s : string) : list (Z * string) := range_from 0 s.

End utf8.

(** ** Package strings *)

Module strings.

(** [strings.Index(s, substr)]: the byte offset of the first occurrence,
    or -1. *)
Definition Index (s substr : string) : Z :=
  match String.index 0 substr s with
  | Some i => Z.of_nat i
  | None => -1
  end.

(** The loop of [strings.FieldsFunc].  [cur] is the field being read
    ([Some] when the Go variable [start] is non-negative). *)
Fixpoint fields_loop (f : Z -> bool) (rs : list (Z * string))
         (cur : option string) : list string :=
  match rs with
  | [] => match cur with Some w => [w] | None => [] end
  | (r, bs) :: rs' =>
    if f r then
      match cur with
      | Some w => w :: fields_loop f rs' None
      | None => fields_loop f rs' None
      end
    else
      fields_loop f rs'
        (Some (match cur with Some w => w ++ bs | None => bs end))
  end.

Definition FieldsFunc (s : string) (f : Z -> bool) : list string :=
  fields_loop f (utf8.range s) None.

End strings.

(** ** Errors *)

(** The error values that reach a caller of [Parse].  Go compares errors by
    identity: the two package variables are values of their own, a
    [*strconv.NumError] and the result of a call of [fmt.Errorf] are
    different values again. *)
Inductive NumErr := ErrSyntax | ErrRange.

Inductive error :=
| ErrBadIdentifer                                  (* errors.New("illumina: unable to parse identifier") *)
| ErrBadTag                                        (* errors.New("illumina: illegal multiplex tag") *)
| NumError (Func Num : string) (Err : NumErr)      (* &strconv.NumError{Func, Num, Err} *)
| Errorf (format : string) (a : error).            (* fmt.Errorf(format, a) *)

(** ** Package strconv: Atoi *)

Module strconv.

(** The loop of [ParseUint(s, 10, 64)] over the bytes of [s]: [inl n] is
    the value read, [inr e] the failure met first. *)
Fixpoint parse_digits (s : string) (n : Z) : Z + NumErr :=
  match s with
  | EmptyString => inl n
  | String c t =>
    let b := byte_of c in
    if (48 <=? b) && (b <=? 57) then
      if maxUint64 / 10 + 1 <=? n then inr ErrRange
      else
        let n1 := n * 10 + (b - 48) in
        if maxUint64 <? n1 then inr ErrRange
        else parse_digits t n1
    else inr ErrSyntax
  end.

Definition ParseUint (s : string) : Z * option NumErr :=
  match s with
  | EmptyString => (0, Some ErrSyntax)
  | _ =>
    match parse_digits s 0 with
    | inl n => (n, None)
    | inr ErrRange => (maxUint64, Some ErrRange)
    | inr ErrSyntax => (0, Some ErrSyntax)
    end
  end.

(** [ParseInt(s, 10, 0)] *)
Definition ParseInt (s : string) : Z * option NumErr :=
  match s with
  | EmptyString => (0, Some ErrSyntax)
  | String c t =>
    let neg := Ascii.eqb c "-" in
    let s' := if Ascii.eqb c "+" || neg then t else s in
    let '(un, err) := ParseUint s' in
    match err with
    | Some ErrSyntax => (0, Some ErrSyntax)
    | _ =>
      let cutoff := 9223372036854775808 in
      if negb neg && (cutoff <=? un) then (maxInt64, Some ErrRange)
      else if neg && (cutoff <? un) then (minInt64, Some ErrRange)
      else (if neg then - un else un, None)
    end
  end.

(** [Atoi(s)].  For short strings Go takes a shortcut that returns what
    [ParseInt] returns; the error names the function and the input. *)
Definition Atoi (s : string) : Z * option error :=
  match ParseInt s with
  | (i, None) => (i, None)
  | (i, Some e) => (i, Some (NumError "Atoi" s e))
  end.

End strconv.

(** ** Package alphabet (github.com/biogo/biogo/alphabet) *)

Module alphabet.

(** [type Letter byte] *)
Definition Letter := ascii.

(** [alphabet.Letter(r)] for a rune [r]: the conversion keeps the low
    eight bits. *)
Definition Letter_of_rune (r : Z) : Letter := ascii_of r.

(** [type Qphred uint8], a value in 0..255. *)
Definition Qphred := Z.

(** [type QLetter struct { L Letter; Q Qphred }] *)
Record QLetter := { L : Letter; Q : Qphred }.

(** The one method of an alphabet that the parser calls. *)
Class Alphabet := { IsValid : Letter -> bool }.

End alphabet.

(** ** Data model of the parser *)

Inductive Type_ := Undefined | PreCasava | Casava.

Record Coordinate := { X : Z; Y : Z }.

Record Multiplex := { Index : Z; Tag : string }.

Record Metadata := {
  MType : Type_;
  Instrument : string;
  Run : Z;
  FlowCell : string;
  Lane : Z;
  Tile : Z;
  Coord : Coordinate;
  Mate : Z;
  BadRead : bool;
  ControlBits : Z;
  Mplex : Multiplex
}.

(** [Metadata{}] *)
Definition Metadata_zero : Metadata :=
  {| MType := Undefined; Instrument := ""; Run := 0; FlowCell := "";
     Lane := 0; Tile := 0; Coord := {| X := 0; Y := 0 |}; Mate := 0;
     BadRead := false; ControlBits := 0;
     Mplex := {| Index := 0; Tag := "" |} |}.

(** Assignments to single fields of the result. *)
Definition set_Type (t : Type_) (m : Metadata) : Metadata :=
  {| MType := t; Instrument := Instrument m; Run := Run m;
     FlowCell := FlowCell m; Lane := Lane m; Tile := Tile m;
     Coord := Coord m; Mate := Mate m; BadRead := BadRead m;
     ControlBits := ControlBits m; Mplex := Mplex m |}.

Definition set_Mate (v : Z) (m : Metadata) : Metadata :=
  {| MType := MType m; Instrument := Instrument m; Run := Run m;
     FlowCell := FlowCell m; Lane := Lane m; Tile := Tile m;
     Coord := Coord m; Mate := v; BadRead := BadRead m;
     ControlBits := ControlBits m; Mplex := Mplex m |}.

Definition set_BadRead (v : bool) (m : Metadata) : Metadata :=
  {| MType := MType m; Instrument := Instrument m; Run := Run m;
     FlowCell := FlowCell m; Lane := Lane m; Tile := Tile m;
     Coord := Coord m; Mate := Mate m; BadRead := v;
     ControlBits := ControlBits m; Mplex := Mplex m |}.

Definition set_ControlBits (v : Z) (m : Metadata) : Metadata :=
  {| MType := MType m; Instrument := Instrument m; Run := Run m;
     FlowCell := FlowCell m; Lane := Lane m; Tile := Tile m;
     Coord := Coord m; Mate := Mate m; BadRead := BadRead m;
     ControlBits := v; Mplex := Mplex m |}.

Definition set_Mplex (v : Multiplex) (m : Metadata) : Metadata :=
  {| MType := MType m; Instrument := Instrument m; Run := Run m;
     FlowCell := FlowCell m; Lane := Lane m; Tile := Tile m;
     Coord := Coord m; Mate := Mate m; BadRead := BadRead m;
     ControlBits := ControlBits m; Mplex := v |}.

Definition set_Index (v : Z) (m : Metadata) : Metadata :=
  set_Mplex {| Index := v; Tag := Tag (Mplex m) |} m.

Definition set_Tag (v : string) (m : Metadata) : Metadata :=
  set_Mplex {| Index := Index (Mplex m); Tag := v |} m.

(** [type Interface interface { Name() string; Description() string }]:
    what the two methods return. *)
Record Interface := { Name : string; Description : string }.

(** ** Panics and the named result

    The body of [preCasava] and of [casava] runs with the named result [m]
    as its state and may panic with an error value. *)

Definition M (A : Type) : Type := Metadata -> Metadata * (A + error).

Definition ret {A} (a : A) : M A := fun m => (m, inl a).

Definition bind {A B} (c : M A) (k : A -> M B) : M B :=
  fun m =>
    match c m with
    | (m', inl a) => k a m'
    | (m', inr e) => (m', inr e)
    end.

Definition panic {A} (e : error) : M A := fun m => (m, inr e).

Definition assign (f : Metadata -> Metadata) : M unit :=
  fun m => (f m, inl tt).

Notation "x <- c ;; k" := (bind c (fun x => k))
  (at level 61, c at next level, right associativity).
Notation "c ;;; k" := (bind c (fun _ => k))
  (at level 61, right associativity).

(** The deferred function of both parsers, applied to the outcome of the
    body started on the zero value of [m]: a panic whose value is an error
    becomes the returned error and resets [m.Type]. *)
Definition recovered (body : M (option error)) : Metadata * option error :=
  match body Metadata_zero with
  | (m, inl err) => (m, err)
  | (m, inr e) => (set_Type Undefined m, Some e)
  end.

(** [len(f)] and [f[i]] on a slice of strings ([i] within bounds). *)
Definition len_f (f : list string) : Z := Z.of_nat (List.length f).

Definition at_ (f : list string) (i : nat) : string := nth i f "".

Definition rune (c : ascii) : Z := byte_of c.

(** ** The parser (illumina.go) *)

Section Parser.

(** [alphabet.DNA], the alphabet of the four bases: its definition lives
    in the alphabet package, the parser only asks it [IsValid]. *)
Context {DNA : alphabet.Alphabet}.

Definition mustAtoi (s : string) : M Z :=
  if len s =? 0 then ret (-1)
  else
    let '(i, err) := strconv.Atoi s in
    match err with
    | Some e => panic e
    | None => ret i
    end.

(** The outcome of [mustAtoi] by itself: it leaves [m] alone. *)
Definition mustAtoi_result (s : string) : Z + error :=
  if len s =? 0 then inl (-1)
  else match strconv.Atoi s with
       | (_, Some e) => inr e
       | (i, None) => inl i
       end.

Definition atob (s : string) : Z * option error :=
  if len s =? 0 then (-1, None)
  else
    let '(i, err) := strconv.Atoi s in
    (int8 i, err).

(** The loop of [tagOk] over the runes of the tag. *)
Fixpoint tagOk_loop (rs : list (Z * string)) : bool :=
  match rs with
  | [] => true
  | (r, _) :: rs' =>
    if negb (alphabet.IsValid (alphabet.Letter_of_rune r)) then false
    else tagOk_loop rs'
  end.

Definition tagOk (tag : string) : bool := tagOk_loop (utf8.range tag).

Definition preCasavaSep (r : Z) : bool :=
  (r =? rune ":") || (r =? rune "#") || (r =? rune "/").

Definition preCasava_body (f : list string) : M (option error) :=
  lane <- mustAtoi (at_ f 1) ;;
  tile <- mustAtoi (at_ f 2) ;;
  x <- mustAtoi (at_ f 3) ;;
  y <- mustAtoi (at_ f 4) ;;
  assign (fun _ =>
    {| MType := PreCasava; Instrument := at_ f 0; Run := -1;
       FlowCell := ""; Lane := int8 lane; Tile := tile;
       Coord := {| X := x; Y := y |}; Mate := 0; BadRead := false;
       ControlBits := 0; Mplex := {| Index := 0; Tag := "" |} |}) ;;;
  let '(i, err) := atob (at_ f 5) in
  assign (set_Index i) ;;;
  err <- match err with
         | Some e =>
           if tagOk (at_ f 5) then
             assign (set_Tag (at_ f 5)) ;;;
             assign (set_Index (-1)) ;;;
             ret None
           else panic (Errorf "illumina: illegal multiplex tag: %s" e)
         | None => ret None
         end ;;
  (if len_f f =? 7 then
     mate <- mustAtoi (at_ f 6) ;;
     assign (set_Mate (int8 mate))
   else ret tt) ;;;
  ret err.

Definition preCasava (name : string) : Metadata * option error :=
  let f := strings.FieldsFunc name preCasavaSep in
  if len_f f <? 6 then (Metadata_zero, Some ErrBadIdentifer)
  else recovered (preCasava_body f).

Definition casavaSep (r : Z) : bool := r =? rune ":".

Definition casava_body (nf df : list string) (desc : string)
  : M (option error) :=
  run <- mustAtoi (at_ nf 1) ;;
  lane <- mustAtoi (at_ nf 3) ;;
  tile <- mustAtoi (at_ nf 4) ;;
  x <- mustAtoi (at_ nf 5) ;;
  y <- mustAtoi (at_ nf 6) ;;
  assign (fun _ =>
    {| MType := Casava; Instrument := at_ nf 0; Run := run;
       FlowCell := at_ nf 2; Lane := int8 lane; Tile := tile;
       Coord := {| X := x; Y := y |}; Mate := 0; BadRead := false;
       ControlBits := -1; Mplex := {| Index := -1; Tag := "" |} |}) ;;;
  (if negb (desc =? "")%string then
     mate <- mustAtoi (at_ df 0) ;;
     assign (set_Mate (int8 mate)) ;;;
     assign (set_BadRead ((at_ df 1 =? "Y")%string
                          || (at_ df 1 =? "y")%string)) ;;;
     cb <- mustAtoi (at_ df 2) ;;
     assign (set_ControlBits cb) ;;;
     assign (set_Tag (at_ df 3))
   else ret tt) ;;;
  ret None.

Definition casava (name desc : string) : Metadata * option error :=
  let nf := strings.FieldsFunc name casavaSep in
  let df := strings.FieldsFunc desc casavaSep in
  if negb ((len_f nf =? 7)
           && ((len_f df =? 4) || (desc =? "")%string))
  then (Metadata_zero, Some ErrBadIdentifer)
  else if (len_f df =? 4) && negb (tagOk (at_ df 3))
  then (Metadata_zero, Some ErrBadTag)
  else recovered (casava_body nf df desc).

Definition Parse (r : Interface) : Metadata * option error :=
  let name := Name r in
  if 0 <=? strings.Index name "#" then preCasava name
  else
    let desc := Description r in
    casava name desc.

End Parser.

(** ** The quality compressor *)

(** Slices and arrays: [d[i]] and [d[i] = v] for an index within bounds
    (the loops below never leave them; a table has 256 entries and is
    indexed by a [uint8]). *)
Definition load {A} (zero : A) (d : list A) (i : nat) : A := nth i d zero.

Fixpoint store {A} (d : list A) (i : nat) (v : A) : list A :=
  match d, i with
  | [], _ => []
  | _ :: t, O => v :: t
  | x :: t, S k => x :: store t k v
  end.

(** [for i, x := range d { d[i] = g(x) }]: [n] elements are still to be
    visited, the next one is at index [i]. *)
Fixpoint for_range {A} (zero : A) (g : A -> A) (n i : nat) (d : list A)
  : list A :=
  match n with
  | O => d
  | S k => for_range zero g k (S i) (store d i (g (load zero d i)))
  end.

(** What the compressor needs from the packages seq and alphabet: the
    probability type and its two conversions, and the methods of a
    [seq.Scorer] over the state [St] of the object that implements it. *)
Class External := {
  float64 : Type;
  ProbE : alphabet.Qphred -> float64;           (* alphabet.Qphred.ProbE *)
  Ephred : float64 -> alphabet.Qphred;          (* alphabet.Ephred *)
  St : Type;
  SetE_error : Type;                            (* the errors of SetE *)
  Start : St -> Z;
  End_ : St -> Z;
  EAt : St -> Z -> float64;
  SetE : St -> Z -> float64 -> St * option SetE_error
}.

(** [int(x)] on the 64-bit platform: wrap-around of the loop counter. *)
Definition int64 (x : Z) : Z :=
  (x + 9223372036854775808) mod 18446744073709551616 - 9223372036854775808.

(** [*[256]alphabet.Qphred]: [None] is the nil pointer. *)
Definition Scheme := option (list alphabet.Qphred).

(** [c[q]] *)
Definition lookup (c : list alphabet.Qphred) (q : alphabet.Qphred)
  : alphabet.Qphred := load 0 c (Z.to_nat q).

(** The [switch] in the initialiser of [defaultCompression]. *)
Definition defaultCompression_case (i : Z) : alphabet.Qphred :=
  if (2 <=? i) && (i <? 10) then 6
  else if (10 <=? i) && (i <? 20) then 15
  else if (20 <=? i) && (i <? 25) then 22
  else if (25 <=? i) && (i <? 30) then 27
  else if (30 <=? i) && (i <? 35) then 33
  else if (35 <=? i) && (i <? 40) then 37
  else if 40 <=? i then 40
  else 0.

(** [for i := 2; i < 256; i++ { ...; cs[i] = q }]: [n] rounds are left. *)
Fixpoint defaultCompression_loop (n : nat) (i : Z)
         (cs : list alphabet.Qphred) : list alphabet.Qphred :=
  match n with
  | O => cs
  | S k =>
    defaultCompression_loop k (i + 1)
      (store cs (Z.to_nat i) (defaultCompression_case i))
  end.

Definition defaultCompression_table : list alphabet.Qphred :=
  defaultCompression_loop 254 2 (repeat 0 256).

Definition defaultCompression : Scheme := Some defaultCompression_table.

Definition DefaultCompression : Scheme := defaultCompression.

(** The table behind a scheme pointer that is not nil. *)
Definition deref (c : Scheme) : list alphabet.Qphred :=
  match c with Some t => t | None => [] end.

Section Compressor.

Context {ext : External}.

(** The dynamic type of the scorer handed to [BinCompress], as far as
    its type switch tells scorers apart.  For a [seq.Slicer] the slice
    returned by [Slice()] shares its backing array with the scorer, so
    the contents of that array are the state the fast paths change. *)
Inductive Scorer :=
| SlicerQLetters (d : list alphabet.QLetter)  (* Slice() is an alphabet.QLetters *)
| SlicerQphreds (d : list alphabet.Qphred)    (* Slice() is a quality.Qphreds *)
| OtherScorer (s : St).                       (* any other Slice(), or no Slicer *)

(** [for i := s.Start(); i < s.End(); i++ { ... }] of [slowCompression].
    The bound is asked of the scorer in every round, so the loop runs on
    fuel: [None] means that the fuel did not suffice. *)
Fixpoint slowCompression_loop (fuel : nat) (s : St) (i : Z)
         (c : list alphabet.Qphred) : option (St * option SetE_error) :=
  match fuel with
  | O => None
  | S k =>
    if i <? End_ s then
      match SetE s i (ProbE (lookup c (Ephred (EAt s i)))) with
      | (s', Some err) => Some (s', Some err)
      | (s', None) => slowCompression_loop k s' (int64 (i + 1)) c
      end
    else Some (s, None)
  end.

Definition slowCompression (fuel : nat) (s : St) (c : Scheme)
  : option (St * option SetE_error) :=
  slowCompression_loop fuel s (Start s) (deref c).

Definition BinCompress (fuel : nat) (s : Scorer) (c : Scheme)
  : option (Scorer * option SetE_error) :=
  let c := match c with None => DefaultCompression | Some _ => c end in
  match s with
  | SlicerQLetters d =>
    let zero := {| alphabet.L := zero; alphabet.Q := 0 |} in
    Some (SlicerQLetters
            (for_range zero
               (fun ql => {| alphabet.L := alphabet.L ql;
                             alphabet.Q := lookup (deref c) (alphabet.Q ql) |})
               (List.length d) 0 d), None)
  | SlicerQphreds d =>
    Some (SlicerQphreds
            (for_range 0 (fun q => lookup (deref c) q)
               (List.length d) 0 d), None)
  | OtherScorer s =>
    match slowCompression fuel s c with
    | Some (s', err) => Some (OtherScorer s', err)
    | None => None
    end
  end.

End Compressor.

(** ** Vocabulary of the specification *)

(** The two conventions, as [Parse] tells them apart. *)
Definition older (r : Interface) : Prop := 0 <= strings.Index (Name r) "#".

Definition newer (r : Interface) : Prop := strings.Index (Name r) "#" < 0.

(** A character, given by its code point, that is one of the letters the
    alphabet accepts.  A letter is one byte: no character beyond code point
    255 is a letter. *)
Definition valid_base {DNA : alphabet.Alphabet} (r : Z) : bool :=
  (r <? 256) && alphabet.IsValid (ascii_of r).

(** A tag with a character that is not a valid base. *)
Definition contains_invalid_base {DNA : alphabet.Alphabet} (tag : string)
  : Prop :=
  Exists (fun p => valid_base (fst p) = false) (utf8.range tag).


(** Exactly one of [Index >= 0] and [Tag != ""]. *)
Definition exactly_one (x : Multiplex) : Prop :=
  (0 <= Index x /\ Tag x = "") \/ (Index x < 0 /\ Tag x <> "").

(** The quality values: 0..255. *)
Definition in_range (q : alphabet.Qphred) : bool := (0 <=? q) && (q <? 256).

Definition all_qualities : list alphabet.Qphred := map Z.of_nat (seq 0 256).

(** The table [BinCompress] works with. *)
Definition table_of (c : Scheme) : list alphabet.Qphred :=
  deref (match c with None => DefaultCompression | Some _ => c end).

(** Every output value of the table is a fixed point of the table. *)
Definition fixed_points (t : list alphabet.Qphred) : bool :=
  forallb (fun v => lookup t (lookup t v) =? lookup t v) all_qualities.

(** The buckets as the specification lists them. *)
Definition documented_bucket (v : Z) : Z :=
  if v <=? 1 then 0
  else if v <=? 9 then 6
  else if v <=? 19 then 15
  else if v <=? 24 then 22
  else if v <=? 29 then 27
  else if v <=? 34 then 33
  else if v <=? 39 then 37
  else 40.

(** A scorer whose quality storage [BinCompress] reaches directly, holding
    quality values. *)
Definition direct_storage {ext : External} (s : Scorer) : bool :=
  match s with
  | SlicerQLetters d => forallb (fun ql => in_range (alphabet.Q ql)) d
  | SlicerQphreds d => forallb in_range d
  | OtherScorer _ => false
  end.

(** A field that [strconv.Atoi] reads without error. *)
Definition numeric (s : string) : Prop := snd (strconv.Atoi s) = None.

(** [type Type int] with its constants ([iota]), and the method [String]
    on any value of that type. *)
Definition Type_int (t : Type_) : Z :=
  match t with
  | Undefined => 0
  | PreCasava => 1
  | Casava => 2
  end.

Definition Type_String (t : Z) : string :=
  if t =? Type_int Undefined then "undefined"
  else if t =? Type_int PreCasava then "pre-casava"
  else if t =? Type_int Casava then "casava"
  else "invalid".

(** The two bytes that encode a code point between 128 and 2047 in UTF-8
    ([utf8.EncodeRune]). *)
Definition two_bytes (cp : Z) : string :=
  String (ascii_of (Z.lor 192 (Z.shiftr cp 6)))
         (String (ascii_of (Z.lor 128 (Z.land cp 63))) "").

(** A string of 7-bit characters only. *)
Fixpoint is_ascii (s : string) : bool :=
  match s with
  | EmptyString => true
  | String c t => (byte_of c <? 128) && is_ascii t
  end.

(** [tag] checked byte by byte. *)
Fixpoint all_valid {DNA : alphabet.Alphabet} (tag : string) : bool :=
  match tag with
  | EmptyString => true
  | String c t => alphabet.IsValid c && all_valid t
  end.


(** The fields of a text as it is written: split at every delimiter
    character, in order, delimiters not retained, an empty field between
    two adjacent delimiters (or at either end) kept. *)
Fixpoint split_loop (f : Z -> bool) (rs : list (Z * string)) (cur : string)
  : list string :=
  match rs with
  | [] => [cur]
  | (r, bs) :: rs' =>
    if f r then cur :: split_loop f rs' ""
    else split_loop f rs' (cur ++ bs)
  end.

Definition Split (s : string) (f : Z -> bool) : list string :=
  split_loop f (utf8.range s) "".

(** No field of the text is empty. *)
Definition no_empty_field (s : string) (f : Z -> bool) : bool :=
  forallb (fun w => negb (w =? "")%string) (Split s f).

(** Every entry of the table that BinCompress works with is a quality
    value (the entries are of type uint8). *)
Definition table_in_range (c : Scheme) : bool :=
  forallb in_range (table_of c).

(** What [slowCompression] hands to SetE at position [i]. *)
Definition generic_arg {ext : External} (t : list alphabet.Qphred)
           (s : St) (i : Z) : float64 :=
  ProbE (lookup t (Ephred (EAt s i))).

(** A scorer whose generic accessor and mutator work on a sequence of
    qualities [quals s], one for each position from Start() to End():
    EAt reads the probability of the quality at a position, SetE stores the
    quality of a probability there without error and changes nothing else,
    and the conversion from a quality to its probability and back gives the
    quality again. *)
Definition lawful {ext : External} (quals : St -> list alphabet.Qphred)
  : Prop :=
  (forall s, End_ s = Start s + Z.of_nat (List.length (quals s))) /\
  (forall s i, Start s <= i < End_ s ->
               Ephred (EAt s i) = load 0 (quals s) (Z.to_nat (i - Start s))) /\
  (forall s i e, Start s <= i < End_ s ->
                 exists s1, SetE s i e = (s1, None) /\
                            Start s1 = Start s /\
                            quals s1 = store (quals s) (Z.to_nat (i - Start s))
                                             (Ephred e)) /\
  (forall q, 0 <= q < 256 -> Ephred (ProbE q) = q).

(** The run of the generic loop from state [s] and position [i] in which
    the first [n] calls of SetE report no error and the next one reports
    [err] and leaves the state [s']. *)
Fixpoint failing_at {ext : External} (t : list alphabet.Qphred) (n : nat)
         (s : St) (i : Z) (s' : St) (err : SetE_error) : Prop :=
  match n with
  | O => i < End_ s /\ SetE s i (generic_arg t s i) = (s', Some err)
  | S k =>
    i < End_ s /\
    snd (SetE s i (generic_arg t s i)) = None /\
    failing_at t k (fst (SetE s i (generic_arg t s i))) (int64 (i + 1)) s' err
  end.

(** ** Concrete collaborators, to run the code on examples *)
Module Examples.

(** Modelled from the spec: the value [alphabet.DNA] of the alphabet
    package, which is not part of this repository's sources.  The
    specification speaks of the four-letter nucleotide alphabet with the
    case as that alphabet defines it; the repository's test passes an
    upper-case tag, and the letters are accepted in both cases here. *)
Definition DNA_IsValid (l : alphabet.Letter) : bool :=
  match l with
  | "a" | "c" | "g" | "t" | "A" | "C" | "G" | "T" => true
  | _ => false
  end%char.

#[export] Instance DNA : alphabet.Alphabet := {| alphabet.IsValid := DNA_IsValid |}.

(** The [tester] of the repository's test. *)
Definition tester (name desc : string) : Interface :=
  {| Name := name; Description := desc |}.

(** The four identifiers of the repository's test. *)
Definition index_id : Interface :=
  tester "HWUSI-EAS100R:6:73:941:1973#0/1" "".

Definition tag_id : Interface :=
  tester "HWUSI-EAS100R:6:73:941:1973#ATCACG/1" "".

Definition casava_id : Interface :=
  tester "EAS139:136:FC706VJ:2:2104:15343:197393" "1:Y:18:ATCACG".

Definition stripped_id : Interface :=
  tester "EAS139:136:FC706VJ:2:2104:15343:197393" "".

(** Variations of them. *)
Definition bad_tag_id : Interface :=
  tester "HWUSI-EAS100R:6:73:941:1973#XYZ/1" "".

Definition negative_index_id : Interface :=
  tester "HWUSI-EAS100R:6:73:941:1973#-5/1" "".


Definition casava_bad_tag_id : Interface :=
  tester "EAS139:136:FC706VJ:2:2104:15343:197393" "1:Y:18:ATXACG".




Definition short_description_id : Interface :=
  tester "EAS139:136:FC706VJ:2:2104:15343:197393" "1:Y:18".

(** A caller's table that sends every quality to the next one. *)
Definition shift_table : list alphabet.Qphred :=
  map (fun v => (v + 1) mod 256) all_qualities.

(** A world in which every scorer is one of the two slicers: no state
    for any other scorer exists. *)
#[export] Instance slicers_only : External := {|
  float64 := unit;
  ProbE := fun _ => tt;
  Ephred := fun _ => 0;
  St := Empty_set;
  SetE_error := Empty_set;
  Start := fun s => match s with end;
  End_ := fun s => match s with end;
  EAt := fun s _ => match s with end;
  SetE := fun s _ _ => match s with end
|}.

End Examples.

(** ** Scorers for the generic path *)
Module Generic.

(** A scorer over a list of qualities, positions 0 .. len-1, that is not
    a Slicer.  The probability of a quality is represented by the quality
    itself, so that both conversions are exact. *)
Definition list_scorer : External := {|
  float64 := Z;
  ProbE := fun q => q;
  Ephred := fun e => e;
  St := list alphabet.Qphred;
  SetE_error := unit;
  Start := fun _ => 0;
  End_ := fun s => Z.of_nat (List.length s);
  EAt := fun s i => load 0 s (Z.to_nat i);
  SetE := fun s i e => (store s (Z.to_nat i) e, None)
|}.

(** The same scorer, but SetE refuses every position from the third on. *)
Definition guarded_scorer : External := {|
  float64 := Z;
  ProbE := fun q => q;
  Ephred := fun e => e;
  St := list alphabet.Qphred;
  SetE_error := unit;
  Start := fun _ => 0;
  End_ := fun s => Z.of_nat (List.length s);
  EAt := fun s i => load 0 s (Z.to_nat i);
  SetE := fun s i e =>
            if i <? 2 then (store s (Z.to_nat i) e, None) else (s, Some tt)
|}.

End Generic.

(** ** More identifiers *)
Module MoreExamples.



(** An older-convention identifier with nothing between '#' and '/'. *)
Definition empty_multiplex_id : Interface :=
  Examples.tester "HWUSI-EAS100R:6:73:941:1973#/1" "".


End MoreExamples.

(** * Properties *)

(** ** Fields produced by FieldsFunc are never empty *)

Lemma DecodeRuneInString_width (c : ascii) (t : string) :
  snd (utf8.DecodeRuneInString (String c t)) <> 0%nat.
Proof.
  unfold utf8.DecodeRuneInString.
  destruct (utf8.first (byte_of c)) as [| | sz lo hi]; simpl; try discriminate.
  destruct t as [|c1 t1]; simpl; try discriminate.
  destruct ((byte_of c1 <? lo) || (hi <? byte_of c1)); simpl; try discriminate.
  destruct (sz <=? 2)%nat; simpl; try discriminate.
  destruct t1 as [|c2 t2]; simpl; try discriminate.
  destruct (negb (utf8.cont (byte_of c2))); simpl; try discriminate.
  destruct (sz <=? 3)%nat; simpl; try discriminate.
  destruct t2 as [|c3 t3]; simpl; try discriminate.
  destruct (negb (utf8.cont (byte_of c3))); simpl; discriminate.
Qed.

Lemma range_from_head (c : ascii) (t : string) :
  utf8.range_from 0 (String c t) =
  (fst (utf8.DecodeRuneInString (String c t)),
   substring 0 (snd (utf8.DecodeRuneInString (String c t))) (String c t))
    :: utf8.range_from (Nat.pred (snd (utf8.DecodeRuneInString (String c t)))) t.
Proof.
  cbn [utf8.range_from].
  destruct (utf8.DecodeRuneInString (String c t)); reflexivity.
Qed.

Lemma range_from_bytes (s : string) :
  forall skip r bs, In (r, bs) (utf8.range_from skip s) -> bs <> "".
Proof.
  induction s as [|c t IH]; intros skip r bs Hin.
  - contradiction.
  - destruct skip as [|k].
    + rewrite range_from_head in Hin.
      pose proof (DecodeRuneInString_width c t) as Hw.
      destruct (utf8.DecodeRuneInString (String c t)) as [r0 w].
      simpl in Hw. destruct Hin as [Heq | Hin].
      * inversion Heq; subst. destruct w as [|w]; [congruence|].
        simpl. discriminate.
      * eapply IH; eassumption.
    + eapply IH; exact Hin.
Qed.

Lemma append_nonempty (a b : string) : b <> "" -> (a ++ b)%string <> "".
Proof.
  destruct a; simpl; [tauto | discriminate].
Qed.

Lemma fields_loop_nonempty (f : Z -> bool) (rs : list (Z * string)) :
  (forall r bs, In (r, bs) rs -> bs <> "") ->
  forall cur w,
    (forall v, cur = Some v -> v <> "") ->
    In w (strings.fields_loop f rs cur) -> w <> "".
Proof.
  induction rs as [|[r bs] rs IH]; intros Hrs cur w Hcur Hin; simpl in Hin.
  - destruct cur as [v|]; simpl in Hin; [|contradiction].
    destruct Hin as [<- | []]. now apply Hcur.
  - assert (Hrs' : forall r' bs', In (r', bs') rs -> bs' <> "")
      by (intros; eapply Hrs; right; eassumption).
    assert (Hbs : bs <> "") by (eapply Hrs; left; reflexivity).
    destruct (f r).
    + destruct cur as [v|].
      * destruct Hin as [<- | Hin]; [now apply Hcur|].
        eapply (IH Hrs' None); [discriminate | exact Hin].
      * eapply (IH Hrs' None); [discriminate | exact Hin].
    + eapply (IH Hrs'); [|exact Hin].
      intros v Hv. inversion Hv; subst; clear Hv.
      destruct cur as [v0|]; [now apply append_nonempty | exact Hbs].
Qed.

Lemma FieldsFunc_nonempty (s : string) (f : Z -> bool) (w : string) :
  In w (strings.FieldsFunc s f) -> w <> "".
Proof.
  unfold strings.FieldsFunc, utf8.range.
  apply fields_loop_nonempty.
  - intros r bs. apply range_from_bytes.
  - discriminate.
Qed.

Lemma at_nonempty (s : string) (f : Z -> bool) (i : nat) :
  Z.of_nat i < len_f (strings.FieldsFunc s f) ->
  at_ (strings.FieldsFunc s f) i <> "".
Proof.
  unfold len_f, at_. intros Hi.
  apply (FieldsFunc_nonempty s f), nth_In. lia.
Qed.

Lemma len_zero (s : string) : (len s =? 0) = true -> s = "".
Proof.
  unfold len. destruct s; [reflexivity|].
  intros H. apply Z.eqb_eq in H. simpl String.length in H. lia.
Qed.

Lemma FieldsFunc_empty (f : Z -> bool) : strings.FieldsFunc "" f = [].
Proof. reflexivity. Qed.

(** ** The body of the parsers, step by step *)

Section ParserFacts.

Context {DNA : alphabet.Alphabet}.

Lemma mustAtoi_run (s : string) (m : Metadata) :
  mustAtoi s m = (m, mustAtoi_result s).
Proof.
  unfold mustAtoi, mustAtoi_result.
  destruct (len s =? 0); [reflexivity|].
  destruct (strconv.Atoi s) as [i [e|]]; reflexivity.
Qed.

Lemma Atoi_error (s : string) (i : Z) (e : error) :
  strconv.Atoi s = (i, Some e) -> exists k, e = NumError "Atoi" s k.
Proof.
  unfold strconv.Atoi. destruct (strconv.ParseInt s) as [j [k|]]; intros H;
    inversion H; subst. now exists k.
Qed.

Lemma mustAtoi_panic (s : string) (e : error) :
  mustAtoi_result s = inr e -> exists k, e = NumError "Atoi" s k.
Proof.
  unfold mustAtoi_result. destruct (len s =? 0); [discriminate|].
  destruct (strconv.Atoi s) as [i [e'|]] eqn:HA; intros H; inversion H; subst.
  eapply Atoi_error; eassumption.
Qed.

Lemma mustAtoi_value (s : string) (v : Z) :
  s <> "" -> mustAtoi_result s = inl v -> strconv.Atoi s = (v, None).
Proof.
  unfold mustAtoi_result. intros Hs.
  destruct (len s =? 0) eqn:Hl; [apply len_zero in Hl; contradiction|].
  destruct (strconv.Atoi s) as [i [e'|]]; intros H; inversion H; reflexivity.
Qed.

Lemma mustAtoi_of_Atoi (s : string) (v : Z) :
  s <> "" -> strconv.Atoi s = (v, None) -> mustAtoi_result s = inl v.
Proof.
  unfold mustAtoi_result. intros Hs HA.
  destruct (len s =? 0) eqn:Hl; [apply len_zero in Hl; contradiction|].
  now rewrite HA.
Qed.

Lemma atob_value (s : string) :
  s <> "" -> atob s = (int8 (fst (strconv.Atoi s)), snd (strconv.Atoi s)).
Proof.
  unfold atob. intros Hs.
  destruct (len s =? 0) eqn:Hl; [apply len_zero in Hl; contradiction|].
  destruct (strconv.Atoi s); reflexivity.
Qed.

End ParserFacts.

(** ** The parser *)

Section ParserProps.

Context {DNA : alphabet.Alphabet}.

Ltac step :=
  first
    [ rewrite mustAtoi_run
    | match goal with
      | |- context [match mustAtoi_result ?s with _ => _ end] =>
        let H := fresh "Hnum" in destruct (mustAtoi_result s) eqn:H
      | |- context [atob ?s] =>
        let H := fresh "Hatob" in destruct (atob s) as [? [?|]] eqn:H
      | |- context [if tagOk ?s then _ else _] =>
        let H := fresh "Htag" in destruct (tagOk s) eqn:H
      | |- context [if len_f ?f =? ?n then _ else _] =>
        let H := fresh "Hlen" in destruct (len_f f =? n) eqn:H
      | |- context [if negb (?d =? "")%string then _ else _] =>
        let H := fresh "Hdesc" in destruct (d =? "")%string eqn:H
      end
    | progress cbv beta iota
    | progress cbn [negb] ].

(** Unfolds the body of a parser and follows every path through it. *)
Ltac run_body :=
  unfold recovered, preCasava_body, casava_body, bind, assign, ret, panic;
  repeat step.

Ltac conclude :=
  let H := fresh in
  intros H; inversion H; subst; clear H; simpl.



Lemma older_dispatch (r : Interface) :
  older r -> Parse r = preCasava (Name r).
Proof.
  unfold older, Parse. intros H. apply Z.leb_le in H. now rewrite H.
Qed.

Lemma newer_dispatch (r : Interface) :
  newer r -> Parse r = casava (Name r) (Description r).
Proof.
  unfold newer, Parse. intros H. apply Z.leb_gt in H. now rewrite H.
Qed.

Lemma older_or_newer (r : Interface) : older r \/ newer r.
Proof. unfold older, newer. lia. Qed.

(** C1 (as amended).  For every older-convention identifier that Parse
    accepts without error, the returned Metadata has Run = -1,
    ControlBits = 0 (the field is never assigned on this path) and
    BadRead = false. *)
Theorem preCasava_constant_fields (r : Interface) (m : Metadata) :
  older r -> Parse r = (m, None) ->
  Run m = -1 /\ ControlBits m = 0 /\ BadRead m = false.
Proof.
  intros Hold. rewrite (older_dispatch r Hold). unfold preCasava.
  set (f := strings.FieldsFunc (Name r) preCasavaSep).
  destruct (len_f f <? 6); [discriminate|].
  run_body; try discriminate; conclude; auto.
Qed.

(** What the older-convention parser does with a multiplex field that is
    neither an integer nor accepted by tagOk, for every identifier with at
    least six fields: Parse fails, the returned Metadata has
    Type = Undefined, and the error is never the ErrBadTag value; when lane,
    tile and the coordinates are well-formed integers it is the value that
    fmt.Errorf builds from the format "illumina: illegal multiplex tag: %s"
    and the integer-parsing error. *)
Lemma preCasava_rejected_tag (r : Interface) :
  let f := strings.FieldsFunc (Name r) preCasavaSep in
  older r -> 6 <= len_f f ->
  snd (strconv.Atoi (at_ f 5)) <> None ->
  tagOk (at_ f 5) = false ->
  exists m e,
    Parse r = (m, Some e) /\ MType m = Undefined /\ e <> ErrBadTag /\
    ((forall i, In i [1; 2; 3; 4]%nat ->
                snd (strconv.Atoi (at_ f i)) = None) ->
     exists cause,
       snd (strconv.Atoi (at_ f 5)) = Some cause /\
       e = Errorf "illumina: illegal multiplex tag: %s" cause).
Proof.
  intros f Hold Hlen Hnum Htag. rewrite (older_dispatch r Hold).
  unfold preCasava. fold f.
  assert (Hne : forall i, (i < 6)%nat -> at_ f i <> "")
    by (intros i Hi; apply at_nonempty; fold f; lia).
  destruct (len_f f <? 6) eqn:Hl; [apply Z.ltb_lt in Hl; lia|].
  unfold recovered, preCasava_body, bind, assign, ret, panic.
  rewrite (atob_value (at_ f 5)) by (apply Hne; lia).
  destruct (strconv.Atoi (at_ f 5)) as [i5 [e5|]] eqn:H5;
    [clear Hnum | now elim Hnum].
  rewrite !mustAtoi_run, Htag. cbn [fst snd].
  assert (Hall : forall i v, (i < 6)%nat -> mustAtoi_result (at_ f i) = inl v ->
                             snd (strconv.Atoi (at_ f i)) = None)
    by (intros i v Hi Hv; now rewrite (mustAtoi_value _ v (Hne i Hi) Hv)).
  assert (Hpanic : forall i e, mustAtoi_result (at_ f i) = inr e ->
            e <> ErrBadTag /\
            snd (strconv.Atoi (at_ f i)) <> None).
  { intros i e He. split.
    - destruct (mustAtoi_panic _ _ He) as [k ->]. discriminate.
    - unfold mustAtoi_result in He. destruct (len (at_ f i) =? 0); [discriminate|].
      destruct (strconv.Atoi (at_ f i)) as [? [?|]]; simpl; congruence. }
  destruct (mustAtoi_result (at_ f 1)) as [v1|e1] eqn:H1; cbv beta iota.
  2:{ exists Metadata_zero, e1. destruct (Hpanic _ _ H1) as [? Hn].
      repeat split; auto. intros Hok. elim Hn. apply Hok. simpl; auto. }
  destruct (mustAtoi_result (at_ f 2)) as [v2|e2] eqn:H2; cbv beta iota.
  2:{ exists Metadata_zero, e2. destruct (Hpanic _ _ H2) as [? Hn].
      repeat split; auto. intros Hok. elim Hn. apply Hok. simpl; auto. }
  destruct (mustAtoi_result (at_ f 3)) as [v3|e3] eqn:H3; cbv beta iota.
  2:{ exists Metadata_zero, e3. destruct (Hpanic _ _ H3) as [? Hn].
      repeat split; auto. intros Hok. elim Hn. apply Hok. simpl; auto. }
  destruct (mustAtoi_result (at_ f 4)) as [v4|e4] eqn:H4; cbv beta iota.
  2:{ exists Metadata_zero, e4. destruct (Hpanic _ _ H4) as [? Hn].
      repeat split; auto. intros Hok. elim Hn. apply Hok. simpl; auto. }
  eexists. eexists. split; [reflexivity|].
  repeat split; [discriminate|]. intros _. now exists e5.
Qed.

(** No path of the older-convention parser returns the ErrBadTag value. *)
Lemma preCasava_never_ErrBadTag (r : Interface) (m : Metadata) (e : error) :
  older r -> Parse r = (m, Some e) -> e <> ErrBadTag.
Proof.
  intros Hold. rewrite (older_dispatch r Hold). unfold preCasava.
  set (f := strings.FieldsFunc (Name r) preCasavaSep).
  destruct (len_f f <? 6); [conclude; discriminate|].
  run_body; try discriminate; conclude; try discriminate;
    match goal with
    | H : mustAtoi_result _ = inr _ |- _ =>
      destruct (mustAtoi_panic _ _ H) as [? ->]; discriminate
    end.
Qed.

(** The multiplex fields that the older-convention body leaves behind. *)
Lemma preCasava_multiplex (f : list string) (m : Metadata) :
  recovered (preCasava_body f) = (m, None) ->
  at_ f 5 <> "" ->
  (exists i, strconv.Atoi (at_ f 5) = (i, None) /\
             Mplex m = {| Index := int8 i; Tag := "" |}) \/
  (snd (strconv.Atoi (at_ f 5)) <> None /\
   Mplex m = {| Index := -1; Tag := at_ f 5 |}).
Proof.
  intros HP H5. revert HP.
  unfold recovered, preCasava_body, bind, assign, ret, panic.
  rewrite (atob_value _ H5).
  destruct (strconv.Atoi (at_ f 5)) as [i5 [e5|]] eqn:HA; cbn [fst snd];
    repeat step; try discriminate; conclude;
    solve [ right; split; [discriminate | reflexivity]
          | left; exists i5; split; reflexivity ].
Qed.



End ParserProps.

(** ** The quality compressor *)

Local Open Scope list_scope.

Lemma load_middle {A} (zero : A) (pre post : list A) (x : A) :
  load zero (pre ++ x :: post) (List.length pre) = x.
Proof.
  unfold load. induction pre as [|y pre IH]; simpl; auto.
Qed.

Lemma store_middle {A} (pre post : list A) (x v : A) :
  store (pre ++ x :: post) (List.length pre) v = pre ++ v :: post.
Proof.
  induction pre as [|y pre IH]; simpl; [reflexivity | now rewrite IH].
Qed.

(** The in-place loop over a slice computes a [map]. *)
Lemma for_range_from {A} (zero : A) (g : A -> A) (post : list A) :
  forall pre,
    for_range zero g (List.length post) (List.length pre) (pre ++ post)
    = pre ++ map g post.
Proof.
  induction post as [|x post IH]; intros pre; simpl.
  - reflexivity.
  - rewrite load_middle, store_middle.
    replace (pre ++ g x :: post) with ((pre ++ [g x]) ++ post)
      by (rewrite <- app_assoc; reflexivity).
    replace (S (List.length pre)) with (List.length (pre ++ [g x]))
      by (rewrite length_app; simpl; lia).
    rewrite IH, <- app_assoc. reflexivity.
Qed.

Lemma for_range_map {A} (zero : A) (g : A -> A) (d : list A) :
  for_range zero g (List.length d) 0 d = map g d.
Proof. exact (for_range_from zero g d []). Qed.

Lemma all_qualities_In (v : Z) : 0 <= v < 256 -> In v all_qualities.
Proof.
  intros Hv. unfold all_qualities.
  replace v with (Z.of_nat (Z.to_nat v)) by lia.
  apply in_map, in_seq. lia.
Qed.

Lemma in_range_bounds (q : Z) : in_range q = true -> 0 <= q < 256.
Proof. unfold in_range. lia. Qed.

Lemma defaultCompression_documented (v : Z) :
  0 <= v < 256 -> lookup defaultCompression_table v = documented_bucket v.
Proof.
  intros Hv.
  assert (H : forallb (fun v => lookup defaultCompression_table v
                                =? documented_bucket v) all_qualities = true)
    by (vm_compute; reflexivity).
  rewrite forallb_forall in H.
  apply Z.eqb_eq, H, all_qualities_In, Hv.
Qed.

Lemma fixed_points_spec (t : list alphabet.Qphred) (v : Z) :
  fixed_points t = true -> 0 <= v < 256 ->
  lookup t (lookup t v) = lookup t v.
Proof.
  unfold fixed_points. rewrite forallb_forall. intros H Hv.
  apply Z.eqb_eq, H, all_qualities_In, Hv.
Qed.

(** The default table sends each of its output values to itself. *)
Lemma defaultCompression_fixed_points :
  fixed_points defaultCompression_table = true.
Proof. vm_compute. reflexivity. Qed.

Lemma map_fixed {A} (g : A -> A) (d : list A) :
  Forall (fun x => g (g x) = g x) d -> map g (map g d) = map g d.
Proof.
  induction 1 as [|x d Hx _ IH]; simpl; [reflexivity | now rewrite Hx, IH].
Qed.

Section CompressorProps.

Context {ext : External}.

(** C4.  The default compression table maps every quality value v in
    [0,255] to its bucket: [0,1] -> 0, [2,9] -> 6, [10,19] -> 15,
    [20,24] -> 22, [25,29] -> 27, [30,34] -> 33, [35,39] -> 37,
    [40,255] -> 40; and BinCompress with a nil scheme, applied to a raw
    quality container that holds the single value v, replaces it with that
    bucket value. *)
Theorem defaultCompression_buckets (v : Z) (fuel : nat) :
  0 <= v <= 255 ->
  let q := lookup (deref DefaultCompression) v in
  (v <= 1 -> q = 0) /\
  (2 <= v <= 9 -> q = 6) /\
  (10 <= v <= 19 -> q = 15) /\
  (20 <= v <= 24 -> q = 22) /\
  (25 <= v <= 29 -> q = 27) /\
  (30 <= v <= 34 -> q = 33) /\
  (35 <= v <= 39 -> q = 37) /\
  (40 <= v -> q = 40) /\
  BinCompress fuel (SlicerQphreds [v]) None
  = Some (SlicerQphreds [q], None).
Proof.
  intros Hv q.
  assert (Hq : q = documented_bucket v)
    by (apply defaultCompression_documented; lia).
  repeat split; try (intros Hr; rewrite Hq; unfold documented_bucket;
    repeat match goal with
           | |- context [?a <=? ?b] => destruct (Z.leb_spec a b); try lia
           end; reflexivity).
Qed.

End CompressorProps.

(** ** The code on concrete inputs *)

Import Examples.

(** The four identifiers of the repository's test give the results that the
    test expects. *)
Example test_preCasava_index :
  Parse index_id =
  ({| MType := PreCasava; Instrument := "HWUSI-EAS100R"; Run := -1;
      FlowCell := ""; Lane := 6; Tile := 73;
      Coord := {| X := 941; Y := 1973 |}; Mate := 1; BadRead := false;
      ControlBits := 0; Mplex := {| Index := 0; Tag := "" |} |}, None).
Proof. reflexivity. Qed.

Example test_preCasava_tag :
  Parse tag_id =
  ({| MType := PreCasava; Instrument := "HWUSI-EAS100R"; Run := -1;
      FlowCell := ""; Lane := 6; Tile := 73;
      Coord := {| X := 941; Y := 1973 |}; Mate := 1; BadRead := false;
      ControlBits := 0; Mplex := {| Index := -1; Tag := "ATCACG" |} |}, None).
Proof. reflexivity. Qed.

Example test_casava :
  Parse casava_id =
  ({| MType := Casava; Instrument := "EAS139"; Run := 136;
      FlowCell := "FC706VJ"; Lane := 2; Tile := 2104;
      Coord := {| X := 15343; Y := 197393 |}; Mate := 1; BadRead := true;
      ControlBits := 18; Mplex := {| Index := -1; Tag := "ATCACG" |} |}, None).
Proof. reflexivity. Qed.

Example test_casava_stripped :
  Parse stripped_id =
  ({| MType := Casava; Instrument := "EAS139"; Run := 136;
      FlowCell := "FC706VJ"; Lane := 2; Tile := 2104;
      Coord := {| X := 15343; Y := 197393 |}; Mate := 0; BadRead := false;
      ControlBits := -1; Mplex := {| Index := -1; Tag := "" |} |}, None).
Proof. reflexivity. Qed.

(** A character beyond one byte is cut to its low eight bits before the
    alphabet is asked: U+0141, encoded as the bytes 197 and 129, counts as
    the letter A. *)
Example tagOk_truncates_runes :
  tagOk (String (ascii_of 197) (String (ascii_of 129) "")) = true.
Proof. reflexivity. Qed.

(** The first test identifier is accepted with ControlBits = 0, so C1 as
    written (ControlBits = -1) does not hold of it. *)
Lemma preCasava_ControlBits_counterexample :
  ~ (forall m,
        Parse index_id = (m, None) ->
        Run m = -1 /\ ControlBits m = -1 /\ BadRead m = false).
Proof.
  intros H. specialize (H _ test_preCasava_index).
  destruct H as [_ [H _]]. discriminate H.
Qed.

Lemma preCasava_constant_fields_witness :
  Run (fst (Parse index_id)) = -1 /\
  ControlBits (fst (Parse index_id)) = 0 /\
  BadRead (fst (Parse index_id)) = false.
Proof.
  apply (preCasava_constant_fields index_id).
  - unfold older. vm_compute. discriminate.
  - reflexivity.
Defined.

(** C2 (the code at a failing input).  The older-convention identifier
    "HWUSI-EAS100R:6:73:941:1973#XYZ/1" has a multiplex field that fails
    integer parsing and contains characters that are not valid DNA bases;
    Parse fails on it, but the error it returns is the value built by
    fmt.Errorf from the integer-parsing error, and not the ErrBadTag
    value. *)
Theorem preCasava_bad_tag_error :
  older bad_tag_id /\
  snd (strconv.Atoi
         (at_ (strings.FieldsFunc (Name bad_tag_id) preCasavaSep) 5)) <> None /\
  contains_invalid_base
    (at_ (strings.FieldsFunc (Name bad_tag_id) preCasavaSep) 5) /\
  snd (Parse bad_tag_id) =
  Some (Errorf "illumina: illegal multiplex tag: %s"
               (NumError "Atoi" "XYZ" ErrSyntax)) /\
  snd (Parse bad_tag_id) <> Some ErrBadTag.
Proof.
  split; [unfold older; vm_compute; discriminate|].
  split; [vm_compute; discriminate|].
  split; [apply Exists_cons_hd; reflexivity|].
  split; [reflexivity | vm_compute; discriminate].
Qed.

Lemma preCasava_rejected_tag_witness :
  exists m e,
    Parse bad_tag_id = (m, Some e) /\ MType m = Undefined /\ e <> ErrBadTag.
Proof.
  destruct (preCasava_rejected_tag bad_tag_id) as [m [e [HP [HT [He _]]]]].
  - unfold older. vm_compute. discriminate.
  - vm_compute. discriminate.
  - vm_compute. discriminate.
  - reflexivity.
  - exists m, e. auto.
Defined.


(** An older-convention identifier with the index -5: accepted, with
    neither Index >= 0 nor a tag, and not the pair of an absent field
    either. *)
Lemma Parse_multiplex_counterexample :
  older negative_index_id /\
  snd (Parse negative_index_id) = None /\
  Mplex (fst (Parse negative_index_id)) = {| Index := -5; Tag := "" |} /\
  ~ exactly_one (Mplex (fst (Parse negative_index_id))).
Proof.
  split; [unfold older; vm_compute; discriminate|].
  split; [reflexivity|]. split; [reflexivity|].
  intros [[H _] | [_ H]]; [vm_compute in H; now apply H | now apply H].
Qed.




Lemma defaultCompression_buckets_witness :
  lookup (deref DefaultCompression) 12 = 15 /\
  BinCompress 0 (SlicerQphreds [12]) None = Some (SlicerQphreds [15], None).
Proof.
  destruct (defaultCompression_buckets 12 0) as (_ & _ & H & _ & _ & _ & _ & _ & HB);
    [lia|].
  split; [apply H; lia | exact HB].
Defined.

(** With a caller's table that has no fixed points a second application
    changes the qualities again: 0 becomes 1, then 2. *)
Lemma BinCompress_idempotent_counterexample :
  BinCompress 0 (SlicerQphreds [0]) (Some shift_table)
  = Some (SlicerQphreds [1], None) /\
  BinCompress 0 (SlicerQphreds [1]) (Some shift_table)
  = Some (SlicerQphreds [2], None) /\
  ~ (exists s1,
        BinCompress 0 (SlicerQphreds [0]) (Some shift_table) = Some (s1, None) /\
        BinCompress 0 s1 (Some shift_table) = Some (s1, None)).
Proof.
  split; [reflexivity|]. split; [reflexivity|].
  intros [s1 [H1 H2]].
  change (Some (SlicerQphreds [1], @None SetE_error) = Some (s1, None)) in H1.
  inversion H1; subst s1.
  change (Some (SlicerQphreds [2], @None SetE_error)
          = Some (SlicerQphreds [1], None)) in H2.
  discriminate H2.
Qed.

(** * Further properties of the parser *)

Section ParserMore.

Context {DNA : alphabet.Alphabet}.

Lemma mustAtoi_field (s : string) :
  s <> "" ->
  mustAtoi_result s =
  match strconv.Atoi s with
  | (_, Some e) => inr e
  | (i, None) => inl i
  end.
Proof.
  intros Hs. unfold mustAtoi_result.
  destruct (len s =? 0) eqn:Hl; [apply len_zero in Hl; contradiction|].
  reflexivity.
Qed.

Lemma mustAtoi_inl_numeric (s : string) (v : Z) :
  s <> "" -> mustAtoi_result s = inl v -> numeric s.
Proof.
  intros Hs H. unfold numeric. now rewrite (mustAtoi_value s v Hs H).
Qed.

Lemma mustAtoi_inr_not_numeric (s : string) (e : error) :
  mustAtoi_result s = inr e -> strconv.Atoi s = (fst (strconv.Atoi s), Some e).
Proof.
  unfold mustAtoi_result. destruct (len s =? 0); [discriminate|].
  destruct (strconv.Atoi s) as [i [e'|]]; intros H; inversion H; reflexivity.
Qed.

Lemma numeric_mustAtoi (s : string) :
  s <> "" -> numeric s ->
  mustAtoi_result s = inl (fst (strconv.Atoi s)).
Proof.
  intros Hs Hn. rewrite (mustAtoi_field s Hs). unfold numeric in Hn.
  destruct (strconv.Atoi s) as [i [e|]]; [discriminate | reflexivity].
Qed.

Ltac step :=
  first
    [ rewrite mustAtoi_run
    | match goal with
      | |- context [match mustAtoi_result ?s with _ => _ end] =>
        let H := fresh "Hnum" in destruct (mustAtoi_result s) eqn:H
      | |- context [if tagOk ?s then _ else _] =>
        let H := fresh "Htag" in destruct (tagOk s) eqn:H
      | |- context [if len_f ?f =? ?n then _ else _] =>
        let H := fresh "Hlen" in destruct (len_f f =? n) eqn:H
      | |- context [if negb (?d =? "")%string then _ else _] =>
        let H := fresh "Hdesc" in destruct (d =? "")%string eqn:H
      end
    | progress cbv beta iota
    | progress cbn [negb fst snd] ].

Ltac run_body :=
  unfold recovered, preCasava_body, casava_body, bind, assign, ret, panic;
  repeat step.

(** Every fact on the path taken, turned into a fact about Atoi. *)
Ltac to_Atoi Hne :=
  repeat match goal with
         | H : mustAtoi_result (at_ ?f ?i) = inl ?v |- _ =>
           apply mustAtoi_value in H; [|apply Hne; simpl; lia]
         | H : mustAtoi_result ?s = inr ?e |- _ =>
           apply mustAtoi_inr_not_numeric in H
         end.

Ltac eqb_facts :=
  repeat match goal with
         | H : (_ =? _) = true |- _ => apply Z.eqb_eq in H
         | H : (_ =? _) = false |- _ => apply Z.eqb_neq in H
         | H : (_ =? _)%string = true |- _ => apply String.eqb_eq in H
         | H : (_ =? _)%string = false |- _ => apply String.eqb_neq in H
         end.

(** X1.  An older-convention identifier that Parse accepts has at least
    six fields and gives Type = PreCasava, the first field (never empty) as
    Instrument, an empty FlowCell, the integers of fields 2 to 5 as Lane
    (converted to int8), Tile, X and Y, and as Mate the integer of the
    seventh field converted to int8 when there are exactly seven fields,
    0 otherwise. *)
Theorem preCasava_accepted_fields (r : Interface) (m : Metadata) :
  older r -> Parse r = (m, None) ->
  let f := strings.FieldsFunc (Name r) preCasavaSep in
  6 <= len_f f /\
  MType m = PreCasava /\
  Instrument m = at_ f 0 /\ Instrument m <> "" /\
  FlowCell m = "" /\
  (exists v, strconv.Atoi (at_ f 1) = (v, None) /\ Lane m = int8 v) /\
  strconv.Atoi (at_ f 2) = (Tile m, None) /\
  strconv.Atoi (at_ f 3) = (X (Coord m), None) /\
  strconv.Atoi (at_ f 4) = (Y (Coord m), None) /\
  (len_f f = 7 ->
   exists v, strconv.Atoi (at_ f 6) = (v, None) /\ Mate m = int8 v) /\
  (len_f f <> 7 -> Mate m = 0).
Proof.
  intros Hold HP f. rewrite (older_dispatch r Hold) in HP.
  unfold preCasava in HP. fold f in HP.
  destruct (len_f f <? 6) eqn:Hl; [discriminate|]. apply Z.ltb_ge in Hl.
  assert (Hne : forall i, Z.of_nat i < len_f f -> at_ f i <> "")
    by (intros i Hi; apply at_nonempty; exact Hi).
  split; [exact Hl|].
  revert HP.
  unfold recovered, preCasava_body, bind, assign, ret, panic.
  destruct (atob (at_ f 5)) as [i5 [e5|]]; repeat step; try discriminate;
    intros HP; inversion HP; subst; clear HP; simpl;
    eqb_facts;
    to_Atoi Hne;
    (repeat split; try assumption; try (apply Hne; lia);
     try (eexists; split; [eassumption | reflexivity]);
     try (intros; congruence); try (intros; reflexivity)).
Qed.

Ltac use_Atoi :=
  unfold numeric in *;
  repeat match goal with
         | H : strconv.Atoi ?s = _ |- _ => rewrite H in *; clear H
         end;
  cbn [fst snd] in *.

(** X2.  Parse accepts an older-convention identifier exactly when it has
    at least six fields, fields 2 to 5 are integers, field 6 is an integer
    or passes tagOk, and, if there are exactly seven fields, field 7 is an
    integer.  Fields beyond the seventh play no part. *)
Theorem preCasava_accepts_iff (r : Interface) :
  older r ->
  let f := strings.FieldsFunc (Name r) preCasavaSep in
  snd (Parse r) = None <->
  6 <= len_f f /\
  numeric (at_ f 1) /\ numeric (at_ f 2) /\
  numeric (at_ f 3) /\ numeric (at_ f 4) /\
  (numeric (at_ f 5) \/ tagOk (at_ f 5) = true) /\
  (len_f f = 7 -> numeric (at_ f 6)).
Proof.
  intros Hold f. rewrite (older_dispatch r Hold).
  unfold preCasava. fold f.
  destruct (len_f f <? 6) eqn:Hl.
  - apply Z.ltb_lt in Hl. simpl. split; [discriminate | lia].
  - apply Z.ltb_ge in Hl.
    assert (Hne : forall i, Z.of_nat i < len_f f -> at_ f i <> "")
      by (intros i Hi; apply at_nonempty; exact Hi).
    unfold recovered, preCasava_body, bind, assign, ret, panic.
    rewrite (atob_value (at_ f 5)) by (apply Hne; simpl; lia).
    destruct (strconv.Atoi (at_ f 5)) as [i5 [e5|]] eqn:H5; cbn [fst snd];
      repeat step; eqb_facts; to_Atoi Hne; use_Atoi;
      (split; [try discriminate; intros _ | intros H; try reflexivity]);
      intuition (try discriminate; try congruence; try lia).
Qed.

Lemma casava_unfold (name desc : string) :
  casava name desc =
  let nf := strings.FieldsFunc name casavaSep in
  let df := strings.FieldsFunc desc casavaSep in
  if len_f nf =? 7 then
    if len_f df =? 4 then
      if tagOk (at_ df 3) then recovered (casava_body nf df desc)
      else (Metadata_zero, Some ErrBadTag)
    else if (desc =? "")%string then recovered (casava_body nf df desc)
    else (Metadata_zero, Some ErrBadIdentifer)
  else (Metadata_zero, Some ErrBadIdentifer).
Proof.
  unfold casava. cbv zeta.
  destruct (len_f (strings.FieldsFunc name casavaSep) =? 7);
    destruct (len_f (strings.FieldsFunc desc casavaSep) =? 4);
    destruct (desc =? "")%string;
    destruct (tagOk (at_ (strings.FieldsFunc desc casavaSep) 3));
    reflexivity.
Qed.

Lemma description_fields (desc : string) :
  len_f (strings.FieldsFunc desc casavaSep) = 4 -> desc <> "".
Proof. intros H E. rewrite E in H. discriminate H. Qed.

(** X3.  A newer-convention identifier that Parse accepts has seven name
    fields and gives Type = Casava, fields 1 and 3 (never empty) as
    Instrument and FlowCell, and the integers of fields 2, 4, 5, 6 and 7 as
    Run, Lane (converted to int8), Tile, X and Y; its description is empty
    or has four fields with a fourth one that passes tagOk. *)
Theorem casava_accepted_fields (r : Interface) (m : Metadata) :
  newer r -> Parse r = (m, None) ->
  let nf := strings.FieldsFunc (Name r) casavaSep in
  let df := strings.FieldsFunc (Description r) casavaSep in
  len_f nf = 7 /\
  MType m = Casava /\
  Instrument m = at_ nf 0 /\ Instrument m <> "" /\
  strconv.Atoi (at_ nf 1) = (Run m, None) /\
  FlowCell m = at_ nf 2 /\ FlowCell m <> "" /\
  (exists v, strconv.Atoi (at_ nf 3) = (v, None) /\ Lane m = int8 v) /\
  strconv.Atoi (at_ nf 4) = (Tile m, None) /\
  strconv.Atoi (at_ nf 5) = (X (Coord m), None) /\
  strconv.Atoi (at_ nf 6) = (Y (Coord m), None) /\
  (Description r = "" \/ (len_f df = 4 /\ tagOk (at_ df 3) = true)).
Proof.
  intros Hnew HP nf df. rewrite (newer_dispatch r Hnew), casava_unfold in HP.
  cbv zeta in HP. fold nf df in HP.
  destruct (len_f nf =? 7) eqn:Hn; [|discriminate]. apply Z.eqb_eq in Hn.
  assert (Hne : forall i, Z.of_nat i < len_f nf -> at_ nf i <> "")
    by (intros i Hi; apply at_nonempty; exact Hi).
  split; [exact Hn|].
  assert (Hd : Description r = "" \/
               (len_f df = 4 /\ tagOk (at_ df 3) = true)).
  { destruct (len_f df =? 4) eqn:Hdf.
    - destruct (tagOk (at_ df 3)); [|discriminate].
      right. split; [now apply Z.eqb_eq | reflexivity].
    - destruct (Description r =? "")%string eqn:Hdesc; [|discriminate].
      left. now apply String.eqb_eq. }
  assert (HP' : recovered (casava_body nf df (Description r)) = (m, None)).
  { destruct (len_f df =? 4); [destruct (tagOk (at_ df 3))|
                               destruct (Description r =? "")%string];
      try discriminate; exact HP. }
  clear HP. revert HP'. run_body; try discriminate;
    intros HP; inversion HP; subst; clear HP; simpl;
    to_Atoi Hne;
    (repeat split; try assumption; try (apply Hne; lia);
     try (eexists; split; [eassumption | reflexivity])).
Qed.

(** X4.  Parse accepts a newer-convention identifier exactly when the
    name has seven fields of which fields 2, 4, 5, 6 and 7 are integers, and
    the description is empty or has four fields of which the first and the
    third are integers and the fourth passes tagOk. *)
Theorem casava_accepts_iff (r : Interface) :
  newer r ->
  let nf := strings.FieldsFunc (Name r) casavaSep in
  let df := strings.FieldsFunc (Description r) casavaSep in
  snd (Parse r) = None <->
  len_f nf = 7 /\
  numeric (at_ nf 1) /\ numeric (at_ nf 3) /\ numeric (at_ nf 4) /\
  numeric (at_ nf 5) /\ numeric (at_ nf 6) /\
  (Description r = "" \/
   (len_f df = 4 /\ tagOk (at_ df 3) = true /\
    numeric (at_ df 0) /\ numeric (at_ df 2))).
Proof.
  intros Hnew nf df. rewrite (newer_dispatch r Hnew), casava_unfold.
  cbv zeta. fold nf df.
  destruct (len_f nf =? 7) eqn:Hn;
    [apply Z.eqb_eq in Hn
    | apply Z.eqb_neq in Hn; simpl; split; [discriminate | tauto]].
  assert (Hne : forall i, Z.of_nat i < len_f nf -> at_ nf i <> "")
    by (intros i Hi; apply at_nonempty; exact Hi).
  destruct (len_f df =? 4) eqn:Hdf.
  - apply Z.eqb_eq in Hdf.
    assert (Hnd : forall i, Z.of_nat i < len_f df -> at_ df i <> "")
      by (intros i Hi; apply at_nonempty; exact Hi).
    pose proof (description_fields _ Hdf) as Hdesc.
    destruct (tagOk (at_ df 3)) eqn:Htag.
    + unfold recovered, casava_body, bind, assign, ret, panic.
      apply String.eqb_neq in Hdesc. rewrite Hdesc.
      apply String.eqb_neq in Hdesc.
      repeat step; to_Atoi Hne; to_Atoi Hnd; use_Atoi;
        (split; [try discriminate; intros _ | intros H; try reflexivity]);
        intuition (try discriminate; try congruence; try lia).
    + simpl. split; [discriminate|].
      intros (_ & _ & _ & _ & _ & _ & [E | (_ & E & _)]);
        [contradiction | discriminate].
  - apply Z.eqb_neq in Hdf.
    destruct (Description r =? "")%string eqn:Hdesc.
    + unfold recovered, casava_body, bind, assign, ret, panic.
      rewrite Hdesc. apply String.eqb_eq in Hdesc.
      repeat step; to_Atoi Hne; use_Atoi;
        (split; [try discriminate; intros _ | intros H; try reflexivity]);
        intuition (try discriminate; try congruence; try lia).
    + apply String.eqb_neq in Hdesc. simpl. split; [discriminate|].
      intros (_ & _ & _ & _ & _ & _ & [E | (E & _)]);
        [contradiction | contradiction].
Qed.

(** The errors that leave the two bodies through [recover]. *)
Lemma preCasava_body_errors (f : list string) (m : Metadata) (e : error) :
  recovered (preCasava_body f) = (m, Some e) ->
  (exists s k, e = NumError "Atoi" s k) \/
  (exists s k, e = Errorf "illumina: illegal multiplex tag: %s"
                          (NumError "Atoi" s k)).
Proof.
  unfold recovered, preCasava_body, bind, assign, ret, panic.
  unfold atob. destruct (len (at_ f 5) =? 0).
  - repeat step; try discriminate; intros H; inversion H; subst;
      left; match goal with
            | H : mustAtoi_result ?s = inr _ |- _ =>
              destruct (mustAtoi_panic _ _ H) as [k ->]; now exists s, k
            end.
  - destruct (strconv.Atoi (at_ f 5)) as [i5 [e5|]] eqn:H5;
      repeat step; try discriminate; intros H; inversion H; subst;
      try (left; match goal with
                 | H : mustAtoi_result ?s = inr _ |- _ =>
                   destruct (mustAtoi_panic _ _ H) as [k ->]; now exists s, k
                 end).
    right. destruct (Atoi_error _ _ _ H5) as [k ->]. now exists (at_ f 5), k.
Qed.

Lemma casava_body_errors (nf df : list string) (desc : string)
      (m : Metadata) (e : error) :
  recovered (casava_body nf df desc) = (m, Some e) ->
  exists s k, e = NumError "Atoi" s k.
Proof.
  run_body; try discriminate; intros H; inversion H; subst;
    match goal with
    | H : mustAtoi_result ?s = inr _ |- _ =>
      destruct (mustAtoi_panic _ _ H) as [k ->]; now exists s, k
    end.
Qed.

(** X5.  Every error that Parse returns is ErrBadIdentifer, or ErrBadTag
    (newer convention only), or the *strconv.NumError of Atoi for a
    malformed number, returned as it is, or (older convention only) the
    error that fmt.Errorf formats from such a NumError for a rejected
    tag. *)
Theorem Parse_error_values (r : Interface) (m : Metadata) (e : error) :
  Parse r = (m, Some e) ->
  e = ErrBadIdentifer \/
  (newer r /\ e = ErrBadTag) \/
  (exists s k, e = NumError "Atoi" s k) \/
  (older r /\
   exists s k, e = Errorf "illumina: illegal multiplex tag: %s"
                          (NumError "Atoi" s k)).
Proof.
  destruct (older_or_newer r) as [Hold | Hnew].
  - rewrite (older_dispatch r Hold). unfold preCasava.
    destruct (len_f _ <? 6).
    + intros H; inversion H; auto.
    + intros H. destruct (preCasava_body_errors _ _ _ H) as [H' | H'];
        [right; right; left | right; right; right; split]; assumption.
  - rewrite (newer_dispatch r Hnew), casava_unfold. cbv zeta.
    destruct (len_f _ =? 7); [|intros H; inversion H; auto].
    destruct (len_f _ =? 4).
    + destruct (tagOk _).
      * intros H. right; right; left. eapply casava_body_errors, H.
      * intros H; inversion H; auto.
    + destruct (Description r =? "")%string.
      * intros H. right; right; left. eapply casava_body_errors, H.
      * intros H; inversion H; auto.
Qed.

(** X6.  Parse returns ErrBadIdentifer exactly when a field count is
    wrong: fewer than six fields in the older convention, other than seven
    name fields in the newer one, or a non-empty description with other
    than four fields.  A malformed number never gives this error. *)
Theorem ErrBadIdentifer_iff (r : Interface) :
  snd (Parse r) = Some ErrBadIdentifer <->
  (older r /\ len_f (strings.FieldsFunc (Name r) preCasavaSep) < 6) \/
  (newer r /\ len_f (strings.FieldsFunc (Name r) casavaSep) <> 7) \/
  (newer r /\ Description r <> "" /\
   len_f (strings.FieldsFunc (Description r) casavaSep) <> 4).
Proof.
  assert (Hex : older r -> newer r -> False)
    by (unfold older, newer; lia).
  destruct (older_or_newer r) as [Hold | Hnew].
  - rewrite (older_dispatch r Hold). unfold preCasava.
    destruct (len_f _ <? 6) eqn:Hl.
    + apply Z.ltb_lt in Hl. simpl. tauto.
    + apply Z.ltb_ge in Hl. split.
      * intros H.
        destruct (recovered (preCasava_body _)) as [m [e|]] eqn:HR;
          simpl in H; [|discriminate].
        inversion H; subst.
        destruct (preCasava_body_errors _ _ _ HR) as [(s & k & E) | (s & k & E)];
          discriminate E.
      * intros [[_ H] | [[H _] | [H _]]]; [lia | tauto | tauto].
  - rewrite (newer_dispatch r Hnew), casava_unfold. cbv zeta.
    destruct (len_f (strings.FieldsFunc (Name r) casavaSep) =? 7) eqn:Hn;
      [apply Z.eqb_eq in Hn | apply Z.eqb_neq in Hn; simpl; tauto].
    assert (Hbody : forall nf df d,
               snd (recovered (casava_body nf df d)) <> Some ErrBadIdentifer).
    { intros nf df d H.
      destruct (recovered (casava_body nf df d)) as [m [e|]] eqn:HR;
        simpl in H; [|discriminate].
      inversion H; subst.
      destruct (casava_body_errors _ _ _ _ _ HR) as (s & k & E).
      discriminate E. }
    destruct (len_f (strings.FieldsFunc (Description r) casavaSep) =? 4)
      eqn:Hdf; [apply Z.eqb_eq in Hdf | apply Z.eqb_neq in Hdf].
    + destruct (tagOk _).
      * split; [intros H; now apply Hbody in H|].
        intros [[H _] | [[_ H] | (_ & _ & H)]]; tauto.
      * simpl. split; [discriminate|].
        intros [[H _] | [[_ H] | (_ & _ & H)]]; tauto.
    + destruct (Description r =? "")%string eqn:Hdesc;
        [apply String.eqb_eq in Hdesc | apply String.eqb_neq in Hdesc].
      * split; [intros H; now apply Hbody in H|].
        intros [[H _] | [[_ H] | (_ & H & _)]]; tauto.
      * simpl. tauto.
Qed.

(** X7.  Parse returns ErrBadTag exactly for a newer-convention identifier
    with seven name fields and four description fields whose fourth
    description field tagOk rejects. *)
Theorem ErrBadTag_iff (r : Interface) :
  snd (Parse r) = Some ErrBadTag <->
  newer r /\
  len_f (strings.FieldsFunc (Name r) casavaSep) = 7 /\
  len_f (strings.FieldsFunc (Description r) casavaSep) = 4 /\
  tagOk (at_ (strings.FieldsFunc (Description r) casavaSep) 3) = false.
Proof.
  split.
  - intros H. destruct (Parse r) as [m [e|]] eqn:HP; simpl in H; [|discriminate].
    inversion H; subst. clear H.
    destruct (older_or_newer r) as [Hold | Hnew].
    + exfalso. rewrite (older_dispatch r Hold) in HP. unfold preCasava in HP.
      destruct (len_f _ <? 6); [discriminate|].
      destruct (preCasava_body_errors _ _ _ HP) as [(s & k & E) | (s & k & E)];
        discriminate E.
    + split; [exact Hnew|].
      rewrite (newer_dispatch r Hnew), casava_unfold in HP. cbv zeta in HP.
      destruct (len_f (strings.FieldsFunc (Name r) casavaSep) =? 7) eqn:Hn;
        [apply Z.eqb_eq in Hn | discriminate].
      destruct (len_f (strings.FieldsFunc (Description r) casavaSep) =? 4)
        eqn:Hdf.
      * apply Z.eqb_eq in Hdf. destruct (tagOk _) eqn:Htag; [|tauto].
        destruct (casava_body_errors _ _ _ _ _ HP) as (s & k & E).
        discriminate E.
      * destruct (Description r =? "")%string; [|discriminate].
        destruct (casava_body_errors _ _ _ _ _ HP) as (s & k & E).
        discriminate E.
  - intros (Hnew & Hn & Hdf & Htag).
    rewrite (newer_dispatch r Hnew), casava_unfold. cbv zeta.
    now rewrite Hn, Hdf, Htag.
Qed.

(** X8.  A malformed number among lane, tile and the coordinates of an
    older-convention identifier: Parse returns the zero Metadata and the
    error of strconv.Atoi for the first such field. *)
Theorem preCasava_malformed_number (r : Interface) (i : nat) (e : error) :
  let f := strings.FieldsFunc (Name r) preCasavaSep in
  older r -> 6 <= len_f f ->
  (1 <= i <= 4)%nat ->
  (forall j, (1 <= j < i)%nat -> numeric (at_ f j)) ->
  snd (strconv.Atoi (at_ f i)) = Some e ->
  Parse r = (Metadata_zero, Some e).
Proof.
  intros f Hold Hl Hi Hbefore He. rewrite (older_dispatch r Hold).
  unfold preCasava. fold f.
  destruct (len_f f <? 6) eqn:Hl'; [apply Z.ltb_lt in Hl'; lia|].
  assert (Hne : forall j, Z.of_nat j < len_f f -> at_ f j <> "")
    by (intros j Hj; apply at_nonempty; exact Hj).
  assert (Hok : forall j, (1 <= j < i)%nat ->
                          exists v, mustAtoi_result (at_ f j) = inl v).
  { intros j Hj. eexists. apply numeric_mustAtoi; [apply Hne; lia|].
    now apply Hbefore. }
  assert (Hbad : mustAtoi_result (at_ f i) = inr e).
  { rewrite mustAtoi_field by (apply Hne; lia).
    destruct (strconv.Atoi (at_ f i)) as [v [e'|]]; simpl in He;
      [now inversion He | discriminate]. }
  unfold recovered, preCasava_body, bind, assign, ret, panic.
  destruct i as [|[|[|[|[|i]]]]]; try lia.
  - rewrite mustAtoi_run, Hbad. reflexivity.
  - destruct (Hok 1%nat) as [v1 H1]; [lia|].
    rewrite !mustAtoi_run, H1, Hbad. reflexivity.
  - destruct (Hok 1%nat) as [v1 H1]; [lia|].
    destruct (Hok 2%nat) as [v2 H2]; [lia|].
    rewrite mustAtoi_run, H1. cbv beta iota.
    rewrite mustAtoi_run, H2. cbv beta iota.
    rewrite mustAtoi_run, Hbad. reflexivity.
  - destruct (Hok 1%nat) as [v1 H1]; [lia|].
    destruct (Hok 2%nat) as [v2 H2]; [lia|].
    destruct (Hok 3%nat) as [v3 H3]; [lia|].
    rewrite mustAtoi_run, H1. cbv beta iota.
    rewrite mustAtoi_run, H2. cbv beta iota.
    rewrite mustAtoi_run, H3. cbv beta iota.
    rewrite mustAtoi_run, Hbad. reflexivity.
Qed.

(** X9.  A malformed number among run, lane, tile and the coordinates of
    a newer-convention identifier whose field counts and tag are in order:
    Parse returns the zero Metadata and the error of strconv.Atoi for the
    first such field. *)
Theorem casava_malformed_number (r : Interface) (k : nat) (e : error) :
  let nf := strings.FieldsFunc (Name r) casavaSep in
  let df := strings.FieldsFunc (Description r) casavaSep in
  let numbers := [1; 3; 4; 5; 6]%nat in
  newer r -> len_f nf = 7 ->
  Description r = "" \/ (len_f df = 4 /\ tagOk (at_ df 3) = true) ->
  (k < 5)%nat ->
  (forall j, (j < k)%nat -> numeric (at_ nf (nth j numbers 0%nat))) ->
  snd (strconv.Atoi (at_ nf (nth k numbers 0%nat))) = Some e ->
  Parse r = (Metadata_zero, Some e).
Proof.
  intros nf df numbers Hnew Hn Hd Hk Hbefore He.
  rewrite (newer_dispatch r Hnew), casava_unfold. cbv zeta. fold nf df.
  rewrite Hn. cbn [Z.eqb Pos.eqb].
  assert (Hne : forall j, Z.of_nat j < len_f nf -> at_ nf j <> "")
    by (intros j Hj; apply at_nonempty; exact Hj).
  assert (Hbody : recovered (casava_body nf df (Description r))
                  = (Metadata_zero, Some e)).
  { assert (Hok : forall j, (j < k)%nat ->
               exists v, mustAtoi_result (at_ nf (nth j numbers 0%nat)) = inl v).
    { intros j Hj. eexists. apply numeric_mustAtoi; [|now apply Hbefore].
      apply Hne. rewrite Hn.
      destruct j as [|[|[|[|[|j]]]]]; simpl; lia. }
    assert (Hbad : mustAtoi_result (at_ nf (nth k numbers 0%nat)) = inr e).
    { rewrite mustAtoi_field.
      - destruct (strconv.Atoi _) as [v [e'|]]; simpl in He;
          [now inversion He | discriminate].
      - apply Hne. rewrite Hn. destruct k as [|[|[|[|[|k]]]]]; simpl; lia. }
    unfold recovered, casava_body, bind, assign, ret, panic.
    destruct k as [|[|[|[|[|k]]]]]; try lia; cbn [nth numbers] in Hbad.
    - rewrite mustAtoi_run, Hbad. reflexivity.
    - destruct (Hok 0%nat) as [v0 H0]; [lia|]. cbn [nth numbers] in H0.
      rewrite mustAtoi_run, H0. cbv beta iota.
      rewrite mustAtoi_run, Hbad. reflexivity.
    - destruct (Hok 0%nat) as [v0 H0]; [lia|]. cbn [nth numbers] in H0.
      destruct (Hok 1%nat) as [v1 H1]; [lia|]. cbn [nth numbers] in H1.
      rewrite mustAtoi_run, H0. cbv beta iota.
      rewrite mustAtoi_run, H1. cbv beta iota.
      rewrite mustAtoi_run, Hbad. reflexivity.
    - destruct (Hok 0%nat) as [v0 H0]; [lia|]. cbn [nth numbers] in H0.
      destruct (Hok 1%nat) as [v1 H1]; [lia|]. cbn [nth numbers] in H1.
      destruct (Hok 2%nat) as [v2 H2]; [lia|]. cbn [nth numbers] in H2.
      rewrite mustAtoi_run, H0. cbv beta iota.
      rewrite mustAtoi_run, H1. cbv beta iota.
      rewrite mustAtoi_run, H2. cbv beta iota.
      rewrite mustAtoi_run, Hbad. reflexivity.
    - destruct (Hok 0%nat) as [v0 H0]; [lia|]. cbn [nth numbers] in H0.
      destruct (Hok 1%nat) as [v1 H1]; [lia|]. cbn [nth numbers] in H1.
      destruct (Hok 2%nat) as [v2 H2]; [lia|]. cbn [nth numbers] in H2.
      destruct (Hok 3%nat) as [v3 H3]; [lia|]. cbn [nth numbers] in H3.
      rewrite mustAtoi_run, H0. cbv beta iota.
      rewrite mustAtoi_run, H1. cbv beta iota.
      rewrite mustAtoi_run, H2. cbv beta iota.
      rewrite mustAtoi_run, H3. cbv beta iota.
      rewrite mustAtoi_run, Hbad. reflexivity. }
  destruct Hd as [Hd | [Hd Htag]].
  - assert (Hdf : (len_f df =? 4) = false)
      by (unfold df; rewrite Hd; reflexivity).
    rewrite Hdf. apply String.eqb_eq in Hd. rewrite Hd. exact Hbody.
  - rewrite Hd, Htag. exact Hbody.
Qed.

(** *** Separators at the head of an identifier *)

Lemma FieldsFunc_leading_separator (c : ascii) (s : string) (f : Z -> bool) :
  byte_of c < 128 -> f (byte_of c) = true ->
  strings.FieldsFunc (String c s) f = strings.FieldsFunc s f.
Proof.
  intros Hc Hf. unfold strings.FieldsFunc, utf8.range.
  rewrite range_from_head.
  assert (Hd : utf8.DecodeRuneInString (String c s) = (byte_of c, 1%nat)).
  { unfold utf8.DecodeRuneInString, utf8.first.
    apply Z.ltb_lt in Hc. now rewrite Hc. }
  rewrite Hd. cbn [fst snd Nat.pred strings.fields_loop]. now rewrite Hf.
Qed.

Lemma Index_after_colon (s : string) :
  (0 <=? strings.Index (String ":" s) "#") = (0 <=? strings.Index s "#").
Proof.
  unfold strings.Index. cbn [String.index].
  replace (prefix "#" (String ":" s)) with false by reflexivity.
  destruct (String.index 0 "#" s) as [k|]; [|reflexivity].
  transitivity true; [apply Z.leb_le | symmetry; apply Z.leb_le]; lia.
Qed.

(** X10.  A ':' before the identifier changes nothing: FieldsFunc drops
    the empty field in front of it. *)
Theorem Parse_leading_colon (name desc : string) :
  Parse {| Name := String ":" name; Description := desc |}
  = Parse {| Name := name; Description := desc |}.
Proof.
  unfold Parse. cbn [Name Description]. rewrite Index_after_colon.
  destruct (0 <=? strings.Index name "#").
  - unfold preCasava.
    now rewrite (FieldsFunc_leading_separator ":" name preCasavaSep).
  - unfold casava.
    now rewrite (FieldsFunc_leading_separator ":" name casavaSep).
Qed.

(** *** tagOk *)

Lemma ascii_of_byte_of (c : ascii) : ascii_of (byte_of c) = c.
Proof.
  destruct c as [[] [] [] [] [] [] [] []]; reflexivity.
Qed.

Lemma range_ascii (s : string) :
  is_ascii s = true ->
  utf8.range s
  = map (fun c => (byte_of c, String c "")) (list_ascii_of_string s).
Proof.
  unfold utf8.range. induction s as [|c t IH]; intros Ha.
  - reflexivity.
  - cbn [is_ascii] in Ha. apply andb_true_iff in Ha. destruct Ha as [Hc Ht].
    rewrite range_from_head.
    assert (Hd : utf8.DecodeRuneInString (String c t) = (byte_of c, 1%nat))
      by (unfold utf8.DecodeRuneInString, utf8.first; now rewrite Hc).
    rewrite Hd. cbn [fst snd Nat.pred list_ascii_of_string map].
    rewrite (IH Ht).
    replace (substring 0 1 (String c t)) with (String c "")
      by (destruct t; reflexivity).
    reflexivity.
Qed.

(** X11.  On a tag of 7-bit characters tagOk is the byte-wise check: it
    holds exactly when the alphabet accepts every character of the tag. *)
Theorem tagOk_ascii (tag : string) :
  is_ascii tag = true -> tagOk tag = all_valid tag.
Proof.
  intros Ha. unfold tagOk. rewrite (range_ascii tag Ha). clear Ha.
  induction tag as [|c t IH]; [reflexivity|].
  cbn [list_ascii_of_string map tagOk_loop all_valid].
  unfold alphabet.Letter_of_rune. rewrite ascii_of_byte_of.
  destruct (alphabet.IsValid c); [exact IH | reflexivity].
Qed.

(** X12.  tagOk judges a character by the low eight bits of its code
    point: the two-byte character with code point 256 + l is accepted
    exactly when the alphabet accepts the letter l. *)
Theorem tagOk_low_byte (l : alphabet.Letter) :
  tagOk (two_bytes (256 + byte_of l)) = alphabet.IsValid l.
Proof.
  assert (Hr : utf8.range (two_bytes (256 + byte_of l))
               = [(256 + byte_of l, two_bytes (256 + byte_of l))])
    by (destruct l as [[] [] [] [] [] [] [] []]; vm_compute; reflexivity).
  assert (Hl : alphabet.Letter_of_rune (256 + byte_of l) = l)
    by (destruct l as [[] [] [] [] [] [] [] []]; vm_compute; reflexivity).
  unfold tagOk. rewrite Hr. cbn [tagOk_loop]. rewrite Hl.
  destruct (alphabet.IsValid l); reflexivity.
Qed.

(** *** Type.String *)

(** X13.  The three types have three different names, none of them
    "invalid", and every other value of the integer type is named
    "invalid". *)
Theorem Type_String_names :
  (forall a b, Type_String (Type_int a) = Type_String (Type_int b) -> a = b) /\
  (forall t, Type_String t = "invalid" <-> forall a, t <> Type_int a).
Proof.
  split.
  - intros [] []; vm_compute; intros H; try reflexivity; discriminate H.
  - intros t. unfold Type_String. cbn [Type_int]. split.
    + intros H a.
      destruct (Z.eqb_spec t 0); [discriminate|].
      destruct (Z.eqb_spec t 1); [discriminate|].
      destruct (Z.eqb_spec t 2); [discriminate|].
      destruct a; simpl; lia.
    + intros H.
      destruct (Z.eqb_spec t 0) as [E|_]; [now elim (H Undefined)|].
      destruct (Z.eqb_spec t 1) as [E|_]; [now elim (H PreCasava)|].
      destruct (Z.eqb_spec t 2) as [E|_]; [now elim (H Casava)|].
      reflexivity.
Qed.

(** *** The integers of a Metadata fit their Go types *)

Lemma int8_range (x : Z) : -128 <= int8 x <= 127.
Proof.
  unfold int8. pose proof (Z.mod_pos_bound (x + 128) 256). lia.
Qed.

Lemma parse_digits_nonneg (s : string) :
  forall n m, 0 <= n -> strconv.parse_digits s n = inl m -> 0 <= m.
Proof.
  induction s as [|c t IH]; intros n m Hn; cbn [strconv.parse_digits].
  - intros H; inversion H; subst; exact Hn.
  - destruct ((48 <=? byte_of c) && (byte_of c <=? 57)) eqn:Hd; [|discriminate].
    destruct (maxUint64 / 10 + 1 <=? n); [discriminate|].
    destruct (maxUint64 <? n * 10 + (byte_of c - 48)); [discriminate|].
    apply IH. lia.
Qed.

Lemma ParseUint_value (s : string) (un : Z) (err : option NumErr) :
  strconv.ParseUint s = (un, err) ->
  0 <= un /\ (err = Some ErrRange -> un = maxUint64).
Proof.
  unfold strconv.ParseUint. destruct s as [|c t].
  - intros H; inversion H; subst. split; [lia | discriminate].
  - destruct (strconv.parse_digits (String c t) 0) as [n|[]] eqn:Hp;
      intros H; inversion H; subst.
    + split; [|discriminate]. eapply parse_digits_nonneg; [|exact Hp]. lia.
    + split; [lia | discriminate].
    + split; [unfold maxUint64; lia | reflexivity].
Qed.

Lemma ParseInt_range (s : string) (v : Z) :
  strconv.ParseInt s = (v, None) -> minInt64 <= v <= maxInt64.
Proof.
  unfold strconv.ParseInt. destruct s as [|c t]; [discriminate|].
  cbv zeta.
  destruct (strconv.ParseUint _) as [un err] eqn:HU.
  apply ParseUint_value in HU. destruct HU as [Hpos Hmax].
  assert (Hcut : maxUint64 = 18446744073709551615) by reflexivity.
  destruct err as [[]|]; [discriminate | |];
    destruct ((c =? "-")%char); cbn [negb andb];
    try (destruct (Z.leb_spec 9223372036854775808 un));
    try (destruct (Z.ltb_spec 9223372036854775808 un));
    intros HP; try discriminate HP;
    try (specialize (Hmax eq_refl));
    inversion HP; subst; unfold minInt64, maxInt64 in *; lia.
Qed.

Lemma Atoi_range (s : string) (v : Z) :
  strconv.Atoi s = (v, None) -> minInt64 <= v <= maxInt64.
Proof.
  unfold strconv.Atoi.
  destruct (strconv.ParseInt s) as [i [e|]] eqn:HP; intros H; inversion H.
  subst v. exact (ParseInt_range s i HP).
Qed.

Lemma mustAtoi_range (s : string) (v : Z) :
  mustAtoi_result s = inl v -> minInt64 <= v <= maxInt64.
Proof.
  unfold mustAtoi_result. destruct (len s =? 0).
  - intros H; inversion H; subst. unfold minInt64, maxInt64. lia.
  - destruct (strconv.Atoi s) as [i [e|]] eqn:HA; intros H; inversion H; subst.
    eapply Atoi_range, HA.
Qed.

(** A record whose integers fit the types of the Go struct. *)
Ltac ranges :=
  simpl;
  repeat match goal with
         | H : mustAtoi_result _ = inl _ |- _ => apply mustAtoi_range in H
         end;
  unfold minInt64, maxInt64 in *;
  repeat split;
  try apply int8_range; try lia.

(** X14.  Every Metadata that Parse returns, with or without error, keeps
    Lane, Mate and Multiplex.Index within int8, and Run, Tile, the
    coordinates and ControlBits within the 64-bit int. *)
Theorem Parse_integer_ranges (r : Interface) :
  let m := fst (Parse r) in
  (-128 <= Lane m <= 127 /\ -128 <= Mate m <= 127 /\
   -128 <= Index (Mplex m) <= 127) /\
  (minInt64 <= Run m <= maxInt64 /\ minInt64 <= Tile m <= maxInt64 /\
   minInt64 <= X (Coord m) <= maxInt64 /\
   minInt64 <= Y (Coord m) <= maxInt64 /\
   minInt64 <= ControlBits m <= maxInt64).
Proof.
  cbv zeta. destruct (older_or_newer r) as [Hold | Hnew].
  - rewrite (older_dispatch r Hold). unfold preCasava.
    destruct (len_f _ <? 6); [ranges|].
    unfold recovered, preCasava_body, bind, assign, ret, panic.
    unfold atob. destruct (len (at_ _ 5) =? 0);
      [|destruct (strconv.Atoi (at_ _ 5)) as [i5 [e5|]]];
      repeat step; ranges.
  - rewrite (newer_dispatch r Hnew), casava_unfold. cbv zeta.
    destruct (len_f _ =? 7); [|ranges].
    destruct (len_f _ =? 4); [destruct (tagOk _)|
                              destruct (Description r =? "")%string];
      try (ranges; fail);
      run_body; ranges.
Qed.

End ParserMore.

(** * Further properties of the compressor *)

Lemma documented_bucket_monotone (v w : Z) :
  v <= w -> documented_bucket v <= documented_bucket w.
Proof.
  intros H. unfold documented_bucket.
  repeat match goal with
         | |- context [?a <=? ?b] => destruct (Z.leb_spec a b)
         end; lia.
Qed.

Lemma documented_bucket_values (v : Z) :
  In (documented_bucket v) [0; 6; 15; 22; 27; 33; 37; 40].
Proof.
  unfold documented_bucket.
  repeat match goal with
         | |- context [?a <=? ?b] => destruct (Z.leb_spec a b)
         end; simpl; auto 10.
Qed.

Lemma lookup_map (g : Z -> Z) (t : list alphabet.Qphred) (q : Z) :
  (Z.to_nat q < List.length t)%nat ->
  lookup (map g t) q = g (lookup t q).
Proof.
  intros H. unfold lookup, load.
  rewrite (nth_indep (map g t) 0 (g 0)) by (rewrite length_map; exact H).
  apply map_nth.
Qed.

(** X15.  The default table never turns the order of two qualities
    around. *)
Theorem defaultCompression_monotone (v w : Z) :
  0 <= v -> v <= w -> w < 256 ->
  lookup (deref DefaultCompression) v <= lookup (deref DefaultCompression) w.
Proof.
  intros H0 Hvw Hw. change (deref DefaultCompression) with defaultCompression_table.
  rewrite !defaultCompression_documented by lia.
  now apply documented_bucket_monotone.
Qed.

Section CompressorMore.

Context {ext : External}.

(** X16.  On a scorer whose storage it reaches directly BinCompress
    always succeeds, whatever the table and the fuel; it keeps the number
    of positions and the letters, and the position that held q holds
    table[q] afterwards. *)
Theorem BinCompress_direct (fuel : nat) (c : Scheme) :
  (forall d,
      BinCompress fuel (SlicerQphreds d) c
      = Some (SlicerQphreds (map (lookup (table_of c)) d), None)) /\
  (forall d,
      BinCompress fuel (SlicerQLetters d) c
      = Some (SlicerQLetters
                (map (fun ql => {| alphabet.L := alphabet.L ql;
                                   alphabet.Q := lookup (table_of c)
                                                        (alphabet.Q ql) |}) d),
              None)).
Proof.
  split; intros d; unfold BinCompress; fold (table_of c);
    now rewrite for_range_map.
Qed.

(** X17.  The two direct storages are compressed alike: the qualities of
    compressed letter+quality pairs are the compressed qualities of the
    pairs. *)
Theorem BinCompress_shapes_agree (fuel : nat) (c : Scheme)
        (d : list alphabet.QLetter) :
  exists d1 d2,
    BinCompress fuel (SlicerQLetters d) c = Some (SlicerQLetters d1, None) /\
    BinCompress fuel (SlicerQphreds (map alphabet.Q d)) c
    = Some (SlicerQphreds d2, None) /\
    map alphabet.Q d1 = d2 /\ map alphabet.L d1 = map alphabet.L d.
Proof.
  unfold BinCompress. fold (table_of c). rewrite !for_range_map.
  eexists. eexists. split; [reflexivity|]. split; [reflexivity|].
  rewrite !map_map. split; reflexivity.
Qed.

(** X18.  Compressing with one table and then with a second one is
    compressing once with the table that looks the entries of the first up
    in the second. *)
Theorem BinCompress_compose (fuel : nat) (s : Scorer)
        (t1 t2 : list alphabet.Qphred) :
  List.length t1 = 256%nat -> direct_storage s = true ->
  exists s1,
    BinCompress fuel s (Some t1) = Some (s1, None) /\
    BinCompress fuel s1 (Some t2)
    = BinCompress fuel s (Some (map (lookup t2) t1)).
Proof.
  intros Hlen Hs.
  assert (Hl : forall q, in_range q = true ->
                         lookup (map (lookup t2) t1) q = lookup t2 (lookup t1 q)).
  { intros q Hq. apply in_range_bounds in Hq. apply lookup_map. lia. }
  unfold BinCompress. cbn [deref].
  destruct s as [d | d | s]; simpl in Hs; [| |discriminate];
    rewrite forallb_forall in Hs;
    eexists; (split; [reflexivity|]);
    rewrite !for_range_map, map_map; do 3 f_equal;
    apply map_ext_in; intros x Hx; cbn [alphabet.L alphabet.Q];
    rewrite Hl by (apply Hs, Hx); reflexivity.
Qed.

(** X19.  With the default table the raw qualities keep their order and
    end among the eight bucket values. *)
Theorem BinCompress_default_order (fuel : nat) (d : list alphabet.Qphred) :
  forallb in_range d = true ->
  exists d1,
    BinCompress fuel (SlicerQphreds d) None = Some (SlicerQphreds d1, None) /\
    List.length d1 = List.length d /\
    (forall q, In q d1 -> In q [0; 6; 15; 22; 27; 33; 37; 40]) /\
    (forall i j, (i < List.length d)%nat -> (j < List.length d)%nat ->
                 nth i d 0 <= nth j d 0 -> nth i d1 0 <= nth j d1 0).
Proof.
  intros Hd. rewrite forallb_forall in Hd.
  unfold BinCompress. rewrite for_range_map.
  exists (map documented_bucket d). split.
  { do 3 f_equal. apply map_ext_in. intros q Hin.
    apply defaultCompression_documented, in_range_bounds, Hd, Hin. }
  split; [apply length_map|]. split.
  - intros q Hin. apply in_map_iff in Hin. destruct Hin as [x [<- _]].
    apply documented_bucket_values.
  - intros i j Hi Hj Hle.
    change 0 with (documented_bucket 0). rewrite !map_nth.
    now apply documented_bucket_monotone.
Qed.

(** *** The generic path *)

Lemma slowCompression_loop_error (fuel : nat) (c : list alphabet.Qphred) :
  forall s i s' err,
    slowCompression_loop fuel s i c = Some (s', Some err) ->
    exists s0 j,
      SetE s0 j (ProbE (lookup c (Ephred (EAt s0 j)))) = (s', Some err).
Proof.
  induction fuel as [|k IH]; intros s i s' err; cbn [slowCompression_loop].
  - discriminate.
  - destruct (i <? End_ s); [|discriminate].
    destruct (SetE s i (ProbE (lookup c (Ephred (EAt s i)))))
      as [s1 [e|]] eqn:HS.
    + intros H; inversion H; subst. now exists s, i.
    + apply IH.
Qed.

Lemma int64_small (x : Z) : minInt64 <= x <= maxInt64 -> int64 x = x.
Proof.
  unfold int64, minInt64, maxInt64. intros H.
  rewrite Z.mod_small by lia. lia.
Qed.

Lemma slowCompression_loop_terminates (c : list alphabet.Qphred) :
  (forall s i e, End_ (fst (SetE s i e)) = End_ s) ->
  forall fuel s i,
    minInt64 <= i -> End_ s <= maxInt64 ->
    (Z.to_nat (End_ s - i) < fuel)%nat ->
    slowCompression_loop fuel s i c <> None.
Proof.
  intros Hend. induction fuel as [|k IH]; intros s i Hi He Hf; [lia|].
  cbn [slowCompression_loop].
  destruct (Z.ltb_spec i (End_ s)); [|discriminate].
  pose proof (Hend s i (ProbE (lookup c (Ephred (EAt s i))))) as HE.
  destruct (SetE s i (ProbE (lookup c (Ephred (EAt s i)))))
    as [s1 [e|]]; [discriminate|].
  cbn [fst] in HE. rewrite int64_small by lia.
  apply IH; rewrite ?HE; lia.
Qed.

(** X21.  The generic path ends: for a scorer whose End() is not changed
    by SetE, a fuel above End() - Start() always gives a result (Start()
    and End() being ints). *)
Theorem BinCompress_generic_terminates (fuel : nat) (s : St) (c : Scheme) :
  (forall s i e, End_ (fst (SetE s i e)) = End_ s) ->
  minInt64 <= Start s -> End_ s <= maxInt64 ->
  (Z.to_nat (End_ s - Start s) < fuel)%nat ->
  exists s' err, BinCompress fuel (OtherScorer s) c = Some (OtherScorer s', err).
Proof.
  intros Hend Hs He Hf. unfold BinCompress, slowCompression.
  pose proof (slowCompression_loop_terminates
                (deref match c with
                       | Some _ => c
                       | None => DefaultCompression
                       end) Hend fuel s (Start s) Hs He Hf) as HT.
  destruct (slowCompression_loop _ _ _ _) as [[s' err]|]; [|now elim HT].
  now exists s', err.
Qed.

(** The positions from [i] up to the end, in the order of the loop. *)
Lemma slowCompression_loop_visits (c : list alphabet.Qphred) :
  (forall s i e, End_ (fst (SetE s i e)) = End_ s) ->
  (forall s i e, snd (SetE s i e) = None) ->
  forall n fuel s i,
    minInt64 <= i -> End_ s <= maxInt64 ->
    n = Z.to_nat (End_ s - i) -> (n < fuel)%nat ->
    slowCompression_loop fuel s i c
    = Some (fold_left
              (fun s j => fst (SetE s j (ProbE (lookup c (Ephred (EAt s j))))))
              (map (fun k => i + Z.of_nat k) (seq 0 n)) s, None).
Proof.
  intros Hend Hok. induction n as [|n IH]; intros fuel s i Hi He Hn Hf;
    (destruct fuel as [|k]; [lia|]); cbn [slowCompression_loop].
  - destruct (Z.ltb_spec i (End_ s)); [lia | reflexivity].
  - destruct (Z.ltb_spec i (End_ s)); [|lia].
    pose proof (Hend s i (ProbE (lookup c (Ephred (EAt s i))))) as HE.
    pose proof (Hok s i (ProbE (lookup c (Ephred (EAt s i))))) as HO.
    destruct (SetE s i (ProbE (lookup c (Ephred (EAt s i)))))
      as [s1 oe] eqn:HS.
    cbn [fst snd] in HE, HO. subst oe. rewrite int64_small by lia.
    rewrite (IH k s1 (i + 1)) by (rewrite ?HE; lia).
    cbn [seq map fold_left]. rewrite Z.add_0_r, HS. cbn [fst].
    rewrite <- seq_shift, map_map. do 2 f_equal.
    f_equal. apply map_ext. intros a. lia.
Qed.

(** X22.  When SetE reports no error and leaves End() alone, the generic
    path calls it once for each position Start(), Start()+1, ..., End()-1,
    in this order, each time with the probability of the table entry of
    the quality read at that position. *)
Theorem BinCompress_generic_visits (fuel : nat) (s : St) (c : Scheme) :
  (forall s i e, End_ (fst (SetE s i e)) = End_ s) ->
  (forall s i e, snd (SetE s i e) = None) ->
  minInt64 <= Start s -> End_ s <= maxInt64 ->
  (Z.to_nat (End_ s - Start s) < fuel)%nat ->
  BinCompress fuel (OtherScorer s) c
  = Some (OtherScorer
            (fold_left
               (fun s j =>
                  fst (SetE s j (ProbE (lookup (table_of c) (Ephred (EAt s j))))))
               (map (fun k => Start s + Z.of_nat k)
                    (seq 0 (Z.to_nat (End_ s - Start s)))) s), None).
Proof.
  intros Hend Hok Hs He Hf. unfold BinCompress, slowCompression.
  fold (table_of c).
  now rewrite (slowCompression_loop_visits (table_of c) Hend Hok _ fuel s
                 (Start s) Hs He eq_refl Hf).
Qed.

End CompressorMore.

(** ** The further properties on concrete inputs *)

Lemma preCasava_accepted_fields_witness :
  Instrument (fst (Parse tag_id)) = "HWUSI-EAS100R" /\
  Instrument (fst (Parse tag_id)) <> "".
Proof.
  destruct (preCasava_accepted_fields tag_id (fst (Parse tag_id)))
    as (_ & _ & HI & HN & _).
  - unfold older. vm_compute. discriminate.
  - reflexivity.
  - split; [exact HI | exact HN].
Defined.

Lemma preCasava_accepts_iff_witness :
  snd (Parse index_id) = None.
Proof.
  apply (proj2 (preCasava_accepts_iff index_id
                  ltac:(unfold older; vm_compute; discriminate))).
  repeat split; try reflexivity.
  - vm_compute. discriminate.
  - left. reflexivity.
Defined.

Lemma casava_accepted_fields_witness :
  FlowCell (fst (Parse casava_id)) = "FC706VJ" /\
  strconv.Atoi "136" = (Run (fst (Parse casava_id)), None).
Proof.
  destruct (casava_accepted_fields casava_id (fst (Parse casava_id)))
    as (_ & _ & _ & _ & HR & HF & _).
  - unfold newer. vm_compute. reflexivity.
  - reflexivity.
  - split; [exact HF | exact HR].
Defined.

Lemma casava_accepts_iff_witness :
  snd (Parse stripped_id) = None /\ snd (Parse casava_id) = None.
Proof.
  split.
  - apply (proj2 (casava_accepts_iff stripped_id
                    ltac:(unfold newer; vm_compute; reflexivity))).
    repeat split; try reflexivity. left. reflexivity.
  - apply (proj2 (casava_accepts_iff casava_id
                    ltac:(unfold newer; vm_compute; reflexivity))).
    repeat split; try reflexivity. right. repeat split; reflexivity.
Defined.

Lemma Parse_error_values_witness :
  ErrBadTag = ErrBadIdentifer \/
  (newer casava_bad_tag_id /\ ErrBadTag = ErrBadTag) \/
  (exists s k, ErrBadTag = NumError "Atoi" s k) \/
  (older casava_bad_tag_id /\
   exists s k, ErrBadTag = Errorf "illumina: illegal multiplex tag: %s"
                                  (NumError "Atoi" s k)).
Proof.
  exact (Parse_error_values casava_bad_tag_id Metadata_zero ErrBadTag eq_refl).
Defined.

Lemma ErrBadIdentifer_iff_witness :
  snd (Parse short_description_id) = Some ErrBadIdentifer.
Proof.
  apply (proj2 (ErrBadIdentifer_iff short_description_id)).
  right. right.
  split; [unfold newer; vm_compute; reflexivity|].
  split; [discriminate | vm_compute; discriminate].
Defined.

Lemma ErrBadTag_iff_witness :
  snd (Parse casava_bad_tag_id) = Some ErrBadTag.
Proof.
  apply (proj2 (ErrBadTag_iff casava_bad_tag_id)).
  split; [unfold newer; vm_compute; reflexivity|].
  repeat split; reflexivity.
Defined.

(** The tile of an older-convention identifier is not a number. *)
Lemma preCasava_malformed_number_witness :
  Parse (tester "HWUSI-EAS100R:6:7x:941:1973#0/1" "")
  = (Metadata_zero, Some (NumError "Atoi" "7x" ErrSyntax)).
Proof.
  apply (preCasava_malformed_number
           (tester "HWUSI-EAS100R:6:7x:941:1973#0/1" "") 2).
  - unfold older. vm_compute. discriminate.
  - vm_compute. discriminate.
  - lia.
  - intros j Hj. assert (j = 1%nat) as -> by lia. reflexivity.
  - reflexivity.
Defined.

(** The lane of a newer-convention identifier is out of the int range. *)
Lemma casava_malformed_number_witness :
  Parse (tester "EAS139:136:FC706VJ:99999999999999999999:2104:15343:197393" "")
  = (Metadata_zero,
     Some (NumError "Atoi" "99999999999999999999" ErrRange)).
Proof.
  apply (casava_malformed_number
           (tester "EAS139:136:FC706VJ:99999999999999999999:2104:15343:197393"
                   "") 1).
  - unfold newer. vm_compute. reflexivity.
  - reflexivity.
  - left. reflexivity.
  - lia.
  - intros j Hj. assert (j = 0%nat) as -> by lia. reflexivity.
  - reflexivity.
Defined.

Lemma tagOk_ascii_witness :
  tagOk "ATCACG" = true /\ tagOk "ATXACG" = false.
Proof.
  split.
  - rewrite (tagOk_ascii "ATCACG" eq_refl). reflexivity.
  - rewrite (tagOk_ascii "ATXACG" eq_refl). reflexivity.
Defined.

Lemma Type_String_names_witness :
  Type_String 7 = "invalid" /\ PreCasava = PreCasava.
Proof.
  split.
  - apply (proj2 (proj2 Type_String_names 7)).
    intros a. destruct a; discriminate.
  - apply (proj1 Type_String_names PreCasava PreCasava). reflexivity.
Defined.

Lemma defaultCompression_monotone_witness :
  lookup (deref DefaultCompression) 9 <= lookup (deref DefaultCompression) 10.
Proof.
  apply (defaultCompression_monotone 9 10); lia.
Defined.

Lemma BinCompress_compose_witness :
  exists s1,
    BinCompress 0 (SlicerQphreds [0; 5; 41]) (Some defaultCompression_table)
    = Some (s1, None) /\
    BinCompress 0 s1 (Some shift_table)
    = BinCompress 0 (SlicerQphreds [0; 5; 41])
                  (Some (map (lookup shift_table) defaultCompression_table)).
Proof.
  apply (BinCompress_compose 0 (SlicerQphreds [0; 5; 41])
                             defaultCompression_table shift_table).
  - reflexivity.
  - reflexivity.
Defined.

Lemma BinCompress_default_order_witness :
  exists d1,
    BinCompress 0 (SlicerQphreds [38; 3; 255; 12]) None
    = Some (SlicerQphreds d1, None) /\
    List.length d1 = 4%nat.
Proof.
  destruct (BinCompress_default_order 0 [38; 3; 255; 12] eq_refl)
    as (d1 & HB & HL & _).
  exists d1. split; [exact HB | exact HL].
Defined.

Lemma store_length {A} (d : list A) :
  forall i v, List.length (store d i v) = List.length d.
Proof.
  induction d as [|x d IH]; intros [|i] v; simpl; auto.
Qed.

(** The generic path on three qualities: SetE refuses the third position,
    the first two stay compressed. *)
Example guarded_scorer_aborts :
  @BinCompress Generic.guarded_scorer 4
               (@OtherScorer Generic.guarded_scorer [3; 12; 41]) None
  = Some (@OtherScorer Generic.guarded_scorer [6; 15; 41], Some tt).
Proof. reflexivity. Qed.

Lemma BinCompress_generic_terminates_witness :
  exists s' err,
    @BinCompress Generic.list_scorer 4
                 (@OtherScorer Generic.list_scorer [3; 12; 41]) None
    = Some (OtherScorer s', err).
Proof.
  apply (@BinCompress_generic_terminates Generic.list_scorer 4 [3; 12; 41] None).
  - intros s i e. simpl. now rewrite store_length.
  - unfold minInt64. simpl. lia.
  - unfold maxInt64. simpl. lia.
  - simpl. lia.
Defined.

Lemma BinCompress_generic_visits_witness :
  @BinCompress Generic.list_scorer 4
               (@OtherScorer Generic.list_scorer [3; 12; 41]) None
  = Some (@OtherScorer Generic.list_scorer [6; 15; 40], None).
Proof.
  rewrite (@BinCompress_generic_visits Generic.list_scorer 4 [3; 12; 41] None).
  - reflexivity.
  - intros s i e. simpl. now rewrite store_length.
  - intros s i e. reflexivity.
  - unfold minInt64. simpl. lia.
  - unfold maxInt64. simpl. lia.
  - simpl. lia.
Defined.

(** * The revised properties of the parser *)

Section ParserRevised.

Context {DNA : alphabet.Alphabet}.

Ltac step :=
  first
    [ rewrite mustAtoi_run
    | match goal with
      | |- context [match mustAtoi_result ?s with _ => _ end] =>
        let H := fresh "Hnum" in destruct (mustAtoi_result s) eqn:H
      | |- context [if tagOk ?s then _ else _] =>
        let H := fresh "Htag" in destruct (tagOk s) eqn:H
      | |- context [if len_f ?f =? ?n then _ else _] =>
        let H := fresh "Hlen" in destruct (len_f f =? n) eqn:H
      | |- context [if negb (?d =? "")%string then _ else _] =>
        let H := fresh "Hdesc" in destruct (d =? "")%string eqn:H
      end
    | progress cbv beta iota
    | progress cbn [negb fst snd] ].

Ltac to_Atoi Hne :=
  repeat match goal with
         | H : mustAtoi_result (at_ ?f ?i) = inl ?v |- _ =>
           apply mustAtoi_value in H; [|apply Hne; simpl; lia]
         | H : mustAtoi_result ?s = inr ?e |- _ =>
           apply mustAtoi_inr_not_numeric in H
         end.

Ltac use_Atoi :=
  unfold numeric in *;
  repeat match goal with
         | H : strconv.Atoi ?s = _ |- _ => rewrite H in *; clear H
         end;
  cbn [fst snd] in *.






(** *** Fields as written and fields as FieldsFunc gives them *)

Lemma split_loop_fields (f : Z -> bool) (rs : list (Z * string)) :
  (forall r bs, In (r, bs) rs -> bs <> "") ->
  forall cur,
    forallb (fun w => negb (w =? "")%string) (split_loop f rs cur) = true ->
    strings.fields_loop f rs
      (match cur with EmptyString => None | _ => Some cur end)
    = split_loop f rs cur.
Proof.
  induction rs as [|[r bs] rs IH]; intros Hrs cur Hall.
  - cbn [split_loop forallb] in Hall. destruct cur; [discriminate|].
    reflexivity.
  - assert (Hrs' : forall r' bs', In (r', bs') rs -> bs' <> "")
      by (intros; eapply Hrs; right; eassumption).
    assert (Hbs : bs <> "") by (eapply Hrs; left; reflexivity).
    cbn [split_loop] in Hall |- *. cbn [strings.fields_loop].
    destruct (f r).
    + cbn [forallb] in Hall. apply andb_true_iff in Hall.
      destruct Hall as [Hcur Hall].
      destruct cur as [|c cur]; [discriminate|].
      f_equal. exact (IH Hrs' "" Hall).
    + rewrite <- (IH Hrs' _ Hall).
      pose proof (append_nonempty cur bs Hbs) as Hne.
      destruct cur as [|c cur].
      * cbn [String.append] in Hne |- *.
        destruct bs; [now elim Hbs | reflexivity].
      * reflexivity.
Qed.

Lemma Split_FieldsFunc (s : string) (f : Z -> bool) :
  no_empty_field s f = true -> strings.FieldsFunc s f = Split s f.
Proof.
  intros H. unfold strings.FieldsFunc, Split.
  refine (split_loop_fields f (utf8.range s) _ "" H).
  intros r bs. apply range_from_bytes.
Qed.

(** C5 (as amended).  For every Metadata returned by a successful Parse:
    in the older convention, when no field of the name is empty (so that
    the multiplex field, the sixth, is present), exactly one of
    Multiplex.Index >= 0 or Multiplex.Tag != "" holds, provided that a
    multiplex field that parses as an integer is not negative once
    converted to int8, and the numeric index 0 gives Index = 0 and
    Tag = ""; in the newer convention exactly one of the two holds when the
    description is present, and Index = -1 with Tag = "" when it is absent.
    An older-convention name with an empty field is left out. *)
Theorem Parse_multiplex_invariant (r : Interface) (m : Metadata) :
  Parse r = (m, None) ->
  (older r -> no_empty_field (Name r) preCasavaSep = true ->
   let multiplex := at_ (Split (Name r) preCasavaSep) 5 in
   multiplex <> "" /\
   ((forall i, strconv.Atoi multiplex = (i, None) -> 0 <= int8 i) ->
    exactly_one (Mplex m)) /\
   (multiplex = "0" -> Mplex m = {| Index := 0; Tag := "" |})) /\
  (newer r -> Description r <> "" -> exactly_one (Mplex m)) /\
  (newer r -> Description r = "" -> Mplex m = {| Index := -1; Tag := "" |}).
Proof.
  intros HP.
  destruct (older_or_newer r) as [Hold | Hnew].
  - assert (Hnot : ~ newer r) by (unfold older, newer in *; lia).
    split; [|tauto]. intros _ Hfields. cbv zeta.
    rewrite <- (Split_FieldsFunc _ _ Hfields).
    set (f := strings.FieldsFunc (Name r) preCasavaSep).
    rewrite (older_dispatch r Hold) in HP. unfold preCasava in HP. fold f in HP.
    destruct (len_f f <? 6) eqn:Hl; [discriminate|]. apply Z.ltb_ge in Hl.
    assert (H5 : at_ f 5 <> "") by (apply at_nonempty; fold f; lia).
    split; [exact H5|].
    destruct (preCasava_multiplex f m HP H5) as [[i [HA HM]] | [HA HM]];
      rewrite HM.
    + split.
      * intros Hpos. left. simpl. split; [now apply Hpos | reflexivity].
      * intros H0. rewrite H0 in HA. vm_compute in HA. now inversion HA.
    + split.
      * intros _. right. simpl. split; [lia | exact H5].
      * intros H0. rewrite H0 in HA. vm_compute in HA. now elim HA.
  - assert (Hnot : ~ older r) by (unfold older, newer in *; lia).
    split; [tauto|].
    rewrite (newer_dispatch r Hnew), casava_unfold in HP. cbv zeta in HP.
    set (nf := strings.FieldsFunc (Name r) casavaSep) in HP.
    set (df := strings.FieldsFunc (Description r) casavaSep) in HP.
    destruct (len_f nf =? 7); [|discriminate].
    destruct (len_f df =? 4) eqn:Hdf.
    + apply Z.eqb_eq in Hdf.
      assert (H3 : at_ df 3 <> "") by (apply at_nonempty; fold df; lia).
      pose proof (description_fields _ Hdf) as Hd.
      destruct (tagOk (at_ df 3)); [|discriminate].
      revert HP. unfold recovered, casava_body, bind, assign, ret, panic.
      apply String.eqb_neq in Hd. rewrite Hd. apply String.eqb_neq in Hd.
      repeat step; try discriminate;
        intros HP; inversion HP; subst; clear HP; simpl.
      split; [intros _ _ | intros _ E; contradiction].
      right. simpl. split; [lia | exact H3].
    + destruct (Description r =? "")%string eqn:Hdesc; [|discriminate].
      revert HP. unfold recovered, casava_body, bind, assign, ret, panic.
      rewrite Hdesc. apply String.eqb_eq in Hdesc.
      repeat step; try discriminate;
        intros HP; inversion HP; subst; clear HP; simpl.
      split; [intros _ E; contradiction | reflexivity].
Qed.



End ParserRevised.

(** * The revised properties of the compressor *)

Lemma lookup_in_range (t : list alphabet.Qphred) (q : Z) :
  forallb in_range t = true -> 0 <= lookup t q < 256.
Proof.
  intros Ht. unfold lookup, load.
  destruct (nth_in_or_default (Z.to_nat q) t 0) as [Hin | Heq].
  - rewrite forallb_forall in Ht. apply in_range_bounds, Ht, Hin.
  - unfold alphabet.Qphred in Heq. rewrite Heq. lia.
Qed.

Section CompressorRevised.

Context {ext : External}.

(** The generic loop on a lawful scorer: it ends without error and leaves
    the table entry of each quality from the current position on. *)
Lemma generic_loop_lawful (quals : St -> list alphabet.Qphred)
      (t : list alphabet.Qphred) :
  lawful quals -> forallb in_range t = true ->
  forall post pre fuel s i,
    quals s = pre ++ post ->
    i = Start s + Z.of_nat (List.length pre) ->
    minInt64 <= Start s -> End_ s <= maxInt64 ->
    (List.length post < fuel)%nat ->
    exists s',
      slowCompression_loop fuel s i t = Some (s', None) /\
      quals s' = pre ++ map (lookup t) post /\
      Start s' = Start s.
Proof.
  intros (L1 & L2 & L3 & L4) Ht.
  induction post as [|x post IH]; intros pre fuel s i Hq Hi Hs He Hf;
    (destruct fuel as [|k]; [simpl in Hf; lia|]);
    cbn [slowCompression_loop];
    pose proof (L1 s) as HE; rewrite Hq, length_app in HE;
    cbn [List.length] in HE.
  - destruct (Z.ltb_spec i (End_ s)); [lia|].
    exists s. rewrite Hq. auto.
  - destruct (Z.ltb_spec i (End_ s)); [|lia].
    assert (Hr : Start s <= i < End_ s) by lia.
    assert (Hidx : Z.to_nat (i - Start s) = List.length pre) by lia.
    rewrite (L2 s i Hr), Hidx, Hq, load_middle.
    destruct (L3 s i (ProbE (lookup t x)) Hr) as (s1 & HS & Hs1 & Hq1).
    rewrite HS.
    rewrite Hidx, Hq, store_middle, (L4 _ (lookup_in_range t x Ht)) in Hq1.
    rewrite int64_small by lia.
    destruct (IH (pre ++ [lookup t x]) k s1 (i + 1)) as (s' & HL & Hq' & Hs').
    + rewrite <- app_assoc. exact Hq1.
    + rewrite length_app, Hs1. cbn [List.length]. lia.
    + lia.
    + rewrite (L1 s1), Hq1, Hs1, length_app. cbn [List.length]. lia.
    + simpl in Hf. lia.
    + exists s'. split; [exact HL|]. split; [|congruence].
      rewrite Hq', <- app_assoc. reflexivity.
Qed.

Lemma generic_lawful (quals : St -> list alphabet.Qphred)
      (fuel : nat) (st : St) (c : Scheme) :
  lawful quals -> table_in_range c = true ->
  minInt64 <= Start st -> End_ st <= maxInt64 ->
  (List.length (quals st) < fuel)%nat ->
  exists st',
    BinCompress fuel (OtherScorer st) c = Some (OtherScorer st', None) /\
    quals st' = map (lookup (table_of c)) (quals st) /\
    Start st' = Start st /\ End_ st' = End_ st.
Proof.
  intros HL Ht Hs He Hf.
  destruct (generic_loop_lawful quals (table_of c) HL Ht (quals st) [] fuel st
              (Start st) eq_refl) as (st' & Hloop & Hq & Hs');
    [simpl; lia | exact Hs | exact He | exact Hf |].
  exists st'. unfold BinCompress, slowCompression. fold (table_of c).
  rewrite Hloop. split; [reflexivity|]. split; [exact Hq|].
  split; [exact Hs'|].
  destruct HL as (L1 & _). rewrite (L1 st'), (L1 st), Hq, Hs'.
  do 2 f_equal. apply length_map.
Qed.

(** C10.  For every lawful scorer and every table (of quality values),
    the generic per-index path from Start() to End() and the two
    direct-storage fast paths leave the same quantized quality at every
    position: on the qualities d the generic path ends without error and
    leaves table[q] where q was, as the raw-quality fast path does on d and
    the letter+quality fast path on pairs with these qualities.  "Up to the
    domain conversion" is the law that the probability of a quality
    converts back to that quality. *)
Theorem BinCompress_paths_agree (quals : St -> list alphabet.Qphred)
        (fuel : nat) (st : St) (c : Scheme) (d : list alphabet.QLetter) :
  lawful quals -> table_in_range c = true ->
  minInt64 <= Start st -> End_ st <= maxInt64 ->
  (List.length (quals st) < fuel)%nat ->
  map alphabet.Q d = quals st ->
  exists st' d1 d2,
    BinCompress fuel (OtherScorer st) c = Some (OtherScorer st', None) /\
    BinCompress fuel (SlicerQphreds (quals st)) c
    = Some (SlicerQphreds d1, None) /\
    BinCompress fuel (SlicerQLetters d) c = Some (SlicerQLetters d2, None) /\
    quals st' = d1 /\ map alphabet.Q d2 = d1 /\
    d1 = map (lookup (table_of c)) (quals st).
Proof.
  intros HL Ht Hs He Hf Hd.
  destruct (generic_lawful quals fuel st c HL Ht Hs He Hf)
    as (st' & HB & Hq & _).
  exists st'. unfold BinCompress at 2 3. fold (table_of c).
  rewrite !for_range_map. eexists. eexists.
  split; [exact HB|]. split; [reflexivity|]. split; [reflexivity|].
  split; [exact Hq|]. split; [|reflexivity].
  rewrite map_map. cbn [alphabet.Q]. rewrite <- Hd, map_map. reflexivity.
Qed.

(** C9 (as amended).  With the default table (a nil scheme), and with any
    table whose output values are fixed points of the table
    (table[table[v]] = table[v] for every v in 0..255), BinCompress is
    idempotent: on a scorer whose quality storage it reaches directly
    (letter+quality pairs or raw quality array) a second application with
    the same table leaves the storage as the first one left it; on any
    other scorer that is lawful (its accessor and mutator work on a
    sequence of qualities, and the probability of a quality converts back
    to the quality) both applications succeed and the second leaves the
    qualities that the first one left. *)
Theorem BinCompress_idempotent (quals : St -> list alphabet.Qphred)
        (fuel : nat) (s : Scorer) (c : Scheme) :
  c = None \/ fixed_points (table_of c) = true ->
  (direct_storage s = true ->
   exists s1,
     BinCompress fuel s c = Some (s1, None) /\
     BinCompress fuel s1 c = Some (s1, None)) /\
  (forall st,
      s = OtherScorer st ->
      lawful quals -> table_in_range c = true ->
      forallb in_range (quals st) = true ->
      minInt64 <= Start st -> End_ st <= maxInt64 ->
      (List.length (quals st) < fuel)%nat ->
      exists st1 st2,
        BinCompress fuel s c = Some (OtherScorer st1, None) /\
        BinCompress fuel (OtherScorer st1) c = Some (OtherScorer st2, None) /\
        quals st2 = quals st1).
Proof.
  intros Hc.
  assert (Hfix : forall v, 0 <= v < 256 ->
            lookup (table_of c) (lookup (table_of c) v) = lookup (table_of c) v).
  { intros v Hv. apply fixed_points_spec; [|exact Hv].
    destruct Hc as [-> | Hc]; [exact defaultCompression_fixed_points | exact Hc]. }
  split.
  - intros Hs. unfold BinCompress. fold (table_of c).
    destruct s as [d | d | s]; simpl in Hs; [| |discriminate].
    + eexists. split; [reflexivity|].
      rewrite !for_range_map. do 3 f_equal.
      rewrite forallb_forall in Hs.
      apply map_fixed, Forall_forall. intros ql Hin. simpl.
      f_equal. apply Hfix, in_range_bounds, Hs, Hin.
    + eexists. split; [reflexivity|].
      rewrite !for_range_map. do 3 f_equal.
      rewrite forallb_forall in Hs.
      apply map_fixed, Forall_forall. intros q Hin.
      apply Hfix, in_range_bounds, Hs, Hin.
  - intros st -> HL Ht Hd Hs He Hf.
    destruct (generic_lawful quals fuel st c HL Ht Hs He Hf)
      as (st1 & HB1 & Hq1 & Hs1 & He1).
    destruct (generic_lawful quals fuel st1 c HL Ht) as (st2 & HB2 & Hq2 & _);
      [rewrite Hs1; exact Hs | rewrite He1; exact He
      | rewrite Hq1, length_map; exact Hf |].
    exists st1, st2. split; [exact HB1|]. split; [exact HB2|].
    rewrite Hq2, Hq1. apply map_fixed, Forall_forall. intros q Hin.
    rewrite forallb_forall in Hd. apply Hfix, in_range_bounds, Hd, Hin.
Qed.

(** *** The first error of the generic path *)

Lemma slowCompression_loop_failing (t : list alphabet.Qphred) :
  forall fuel s i s' err,
    slowCompression_loop fuel s i t = Some (s', Some err) <->
    exists n, (n < fuel)%nat /\ failing_at t n s i s' err.
Proof.
  induction fuel as [|k IH]; intros s i s' err.
  - split; [discriminate | intros (n & Hn & _); lia].
  - cbn [slowCompression_loop].
    change (ProbE (lookup t (Ephred (EAt s i)))) with (generic_arg t s i).
    destruct (Z.ltb_spec i (End_ s)) as [Hlt | Hge].
    + destruct (SetE s i (generic_arg t s i)) as [s1 [e|]] eqn:HS.
      * split.
        -- intros H; inversion H; subst. exists 0%nat.
           split; [lia|]. cbn [failing_at]. rewrite HS. auto.
        -- intros ([|n] & Hn & Hf); cbn [failing_at] in Hf.
           ++ destruct Hf as [_ Hf]. rewrite HS in Hf. now inversion Hf.
           ++ destruct Hf as (_ & Hf & _). rewrite HS in Hf. discriminate.
      * rewrite IH. split.
        -- intros (n & Hn & Hf). exists (S n). split; [lia|].
           cbn [failing_at]. rewrite HS. cbn [fst snd]. auto.
        -- intros ([|n] & Hn & Hf); cbn [failing_at] in Hf.
           ++ destruct Hf as [_ Hf]. rewrite HS in Hf. discriminate.
           ++ destruct Hf as (_ & _ & Hf). rewrite HS in Hf. cbn [fst] in Hf.
              exists n. split; [lia | exact Hf].
    + split; [discriminate|].
      intros ([|n] & _ & Hf); cbn [failing_at] in Hf; lia.
Qed.

(** X20.  The generic path returns an error exactly when, starting at
    Start(), some number of calls of SetE go through one after the other
    and the next call fails: the error returned is the error of that call
    and the state returned is the state that call left, so that nothing is
    done after the first failing SetE. *)
Theorem BinCompress_first_error (fuel : nat) (s : St) (c : Scheme)
        (r : Scorer) (err : SetE_error) :
  BinCompress fuel (OtherScorer s) c = Some (r, Some err) <->
  exists n s',
    (n < fuel)%nat /\
    failing_at (table_of c) n s (Start s) s' err /\
    r = OtherScorer s'.
Proof.
  unfold BinCompress, slowCompression. fold (table_of c).
  destruct (slowCompression_loop fuel s (Start s) (table_of c))
    as [[s1 oe]|] eqn:HL.
  - split.
    + intros H; inversion H; subst.
      apply slowCompression_loop_failing in HL. destruct HL as (n & Hn & Hf).
      now exists n, s1.
    + intros (n & s' & Hn & Hf & ->).
      assert (HL' : slowCompression_loop fuel s (Start s) (table_of c)
                    = Some (s', Some err))
        by (apply slowCompression_loop_failing; now exists n).
      rewrite HL in HL'. inversion HL'; subst. reflexivity.
  - split; [discriminate|].
    intros (n & s' & Hn & Hf & _).
    assert (HL' : slowCompression_loop fuel s (Start s) (table_of c)
                  = Some (s', Some err))
      by (apply slowCompression_loop_failing; now exists n).
    rewrite HL in HL'. discriminate.
Qed.

End CompressorRevised.

(** ** The revised properties on concrete inputs *)

Import MoreExamples.


(** Nothing between '#' and '/': FieldsFunc drops the empty field, the
    mate is read as the multiplex index and no mate is left. *)
Example preCasava_empty_multiplex_field :
  Mplex (fst (Parse empty_multiplex_id)) = {| Index := 1; Tag := "" |} /\
  Mate (fst (Parse empty_multiplex_id)) = 0 /\
  snd (Parse empty_multiplex_id) = None /\
  no_empty_field (Name empty_multiplex_id) preCasavaSep = false.
Proof. repeat split. Qed.

Lemma Parse_multiplex_invariant_witness :
  exactly_one (Mplex (fst (Parse index_id))) /\
  exactly_one (Mplex (fst (Parse casava_id))) /\
  Mplex (fst (Parse stripped_id)) = {| Index := -1; Tag := "" |}.
Proof.
  split; [|split].
  - destruct (proj1 (Parse_multiplex_invariant index_id _ eq_refl))
      as (_ & H & _).
    + unfold older. vm_compute. discriminate.
    + reflexivity.
    + apply H. intros i HA. vm_compute in HA. inversion HA.
      vm_compute. discriminate.
  - refine (proj1 (proj2 (Parse_multiplex_invariant casava_id _ eq_refl)) _ _).
    + unfold newer. vm_compute. reflexivity.
    + discriminate.
  - refine (proj2 (proj2 (Parse_multiplex_invariant stripped_id _ eq_refl)) _ _).
    + unfold newer. vm_compute. reflexivity.
    + reflexivity.
Defined.



Lemma list_scorer_lawful : @lawful Generic.list_scorer (fun s => s).
Proof.
  unfold lawful. cbn [Start End_ EAt SetE Ephred ProbE Generic.list_scorer].
  split; [intros s; lia|].
  split; [intros s i _; now rewrite Z.sub_0_r|].
  split; [|reflexivity].
  intros s i e _. eexists. split; [reflexivity|].
  split; [reflexivity | now rewrite Z.sub_0_r].
Qed.

Lemma BinCompress_idempotent_witness :
  (exists s1,
      BinCompress 0 (SlicerQphreds [0; 5; 12; 24; 41; 93]) None
      = Some (s1, None) /\
      BinCompress 0 s1 None = Some (s1, None)) /\
  (exists st1 st2,
      @BinCompress Generic.list_scorer 4
                   (@OtherScorer Generic.list_scorer [3; 12; 41]) None
      = Some (OtherScorer st1, None) /\
      @BinCompress Generic.list_scorer 4 (OtherScorer st1) None
      = Some (OtherScorer st2, None) /\
      st2 = st1).
Proof.
  split.
  - apply (proj1 (BinCompress_idempotent
                    (fun s : @St slicers_only => match s with end)
                    0 (SlicerQphreds [0; 5; 12; 24; 41; 93]) None
                    (or_introl eq_refl))).
    reflexivity.
  - apply (proj2 (@BinCompress_idempotent Generic.list_scorer (fun s => s) 4
                    (@OtherScorer Generic.list_scorer [3; 12; 41]) None
                    (or_introl eq_refl)) [3; 12; 41] eq_refl).
    + exact list_scorer_lawful.
    + reflexivity.
    + reflexivity.
    + unfold minInt64. simpl. lia.
    + unfold maxInt64. simpl. lia.
    + simpl. lia.
Defined.

Lemma BinCompress_paths_agree_witness :
  exists st' d1 d2,
    @BinCompress Generic.list_scorer 4
                 (@OtherScorer Generic.list_scorer [3; 12; 41]) None
    = Some (OtherScorer st', None) /\
    @BinCompress Generic.list_scorer 4 (SlicerQphreds [3; 12; 41]) None
    = Some (SlicerQphreds d1, None) /\
    @BinCompress Generic.list_scorer 4
       (SlicerQLetters [ {| alphabet.L := "A"%char; alphabet.Q := 3 |};
                         {| alphabet.L := "C"%char; alphabet.Q := 12 |};
                         {| alphabet.L := "G"%char; alphabet.Q := 41 |} ]) None
    = Some (SlicerQLetters d2, None) /\
    st' = d1 /\ map alphabet.Q d2 = d1 /\ d1 = [6; 15; 40].
Proof.
  apply (@BinCompress_paths_agree Generic.list_scorer (fun s => s) 4
           [3; 12; 41] None).
  - exact list_scorer_lawful.
  - reflexivity.
  - unfold minInt64. simpl. lia.
  - unfold maxInt64. simpl. lia.
  - simpl. lia.
  - reflexivity.
Defined.

Lemma BinCompress_first_error_witness :
  @BinCompress Generic.guarded_scorer 4
               (@OtherScorer Generic.guarded_scorer [3; 12; 41]) None
  = Some (@OtherScorer Generic.guarded_scorer [6; 15; 41], Some tt).
Proof.
  apply (proj2 (@BinCompress_first_error Generic.guarded_scorer 4 [3; 12; 41]
                  None _ tt)).
  exists 2%nat, [6; 15; 41]. split; [lia|]. split; [|reflexivity].
  vm_compute. repeat split; reflexivity.
Defined.
